(** * Travel ticket dashboard (streamlit_app.py): a shallow embedding

    The program is one Streamlit script: it loads a CSV into a pandas
    DataFrame, derives three columns, reads the sidebar widgets, filters the
    frame and prints metrics, charts and tables.

    Conventions of the embedding
    - a DataFrame is the list of its rows, in row order;
    - timestamps are [Z] nanoseconds since the epoch (datetime64[ns]);
    - numeric columns that may hold decimals ([Price], [CouponDiscount]),
      their means and the edges of the histogram bins are exact rationals
      [Q]: pandas fixes no order of summation, so the last bit of a mean is
      not determined by the script;
    - the cancellation rate, a quotient and a product of two numbers, is
      computed in binary64 as the script does: [fl] rounds to the nearest
      binary64 number;
    - a missing value (NaN) of a derived label column is [None];
    - pandas and Streamlit calls are modelled by functions that carry the
      name of the call ([cut], [isin], [unique], [value_counts], ...). *)

From Stdlib Require Import List ZArith QArith Qround Qminmax Qabs Qpower String Ascii Bool
  Lia Lqa
  Permutation Sorted DecimalString DecimalPos DecimalN Finite.
Import ListNotations.

Local Set Warnings "-register-all".
Local Open Scope Z_scope.
Local Open Scope string_scope.

(* ================================================================== *)
(** * Part I: definitions *)
(* ================================================================== *)

(** ** Rows *)

(** A row of EDA_cleaned.csv, restricted to the columns the script reads. *)
Record CsvRow := mkCsvRow {
  csv_Vehicle        : string;
  csv_TripReason     : string;
  csv_Domestic       : Z;
  csv_Cancel         : Z;
  csv_Price          : Q;
  csv_CouponDiscount : Q;
  csv_Male           : Z;
  csv_From           : string;
  csv_To             : string;
  csv_Created        : Z;
  csv_DepartureTime  : Z
}.

(** A row of [df] as [load_data] returns it: the CSV columns and the three
    derived ones. *)
Record Row := mkRow {
  Vehicle            : string;
  TripReason         : string;
  Domestic           : Z;
  Cancel             : Z;
  Price              : Q;
  CouponDiscount     : Q;
  Male               : Z;
  From               : string;
  To                 : string;
  Created            : Z;
  DepartureTime      : Z;
  DaysUntilDeparture : Z;
  PriceCategory      : option string;
  Gender             : option string
}.

Definition DataFrame := list Row.

(** ** load_data *)

(** Nanoseconds in a day. *)
Definition ns_per_day : Z := 86400 * 1000000000.

(** [Timedelta.days] (the [.dt.days] accessor): pandas normalises a
    Timedelta to [days] plus a non-negative remainder, so the component
    is the floor of the quotient. *)
Definition dt_days (td : Z) : Z := td / ns_per_day.

(** Edges of the bins handed to [pd.cut]; the last one is [float('inf')]. *)
Inductive Edge :=
| Finite (q : Q)
| Inf.

Definition Qlt_bool (x y : Q) : bool := negb (Qle_bool y x).

(** [e < x] and [x <= e] for an edge [e]. *)
Definition edge_ltb (e : Edge) (x : Q) : bool :=
  match e with
  | Finite q => Qlt_bool q x
  | Inf => false
  end.

Definition leb_edge (x : Q) (e : Edge) : bool :=
  match e with
  | Finite q => Qle_bool x q
  | Inf => true
  end.

(** [pd.cut(x, bins, labels)] with its defaults [right=True],
    [include_lowest=False]: the label of the interval (bins[i], bins[i+1]]
    that holds [x], and NaN when there is none. *)
Fixpoint cut (bins : list Edge) (labels : list string) (x : Q) : option string :=
  match bins, labels with
  | lo :: ((hi :: _) as rest), lab :: labs =>
      if edge_ltb lo x && leb_edge x hi then Some lab else cut rest labs x
  | _, _ => None
  end.

Definition price_bins_edges : list Edge :=
  [Finite 0; Finite (1000000 # 1); Finite (5000000 # 1); Finite (10000000 # 1); Inf].

Definition price_labels : list string := ["<1M"; "1M-5M"; "5M-10M"; ">10M"].

Definition price_category (p : Q) : option string :=
  cut price_bins_edges price_labels p.

(** [Series.map({1: 'Male', 0: 'Female'})]: keys that are not in the dict
    map to NaN. *)
Definition gender_of (male : Z) : option string :=
  if Z.eqb male 1 then Some "Male"
  else if Z.eqb male 0 then Some "Female"
  else None.

Definition derive (c : CsvRow) : Row :=
  {| Vehicle := csv_Vehicle c;
     TripReason := csv_TripReason c;
     Domestic := csv_Domestic c;
     Cancel := csv_Cancel c;
     Price := csv_Price c;
     CouponDiscount := csv_CouponDiscount c;
     Male := csv_Male c;
     From := csv_From c;
     To := csv_To c;
     Created := csv_Created c;
     DepartureTime := csv_DepartureTime c;
     DaysUntilDeparture := dt_days (csv_DepartureTime c - csv_Created c);
     PriceCategory := price_category (csv_Price c);
     Gender := gender_of (csv_Male c) |}.

(** [load_data()], given the parsed contents of the CSV file. *)
Definition load_data (csv : list CsvRow) : DataFrame := map derive csv.

(** ** pandas helpers *)

Section Columns.
Context {A : Type} (eqb : A -> A -> bool).

(** [Series.unique()]: the distinct values, in order of first appearance. *)
Fixpoint unique (l : list A) : list A :=
  match l with
  | [] => []
  | x :: t => x :: filter (fun y => negb (eqb x y)) (unique t)
  end.

(** [Series.isin(values)] at one cell: equal to one of the values. *)
Definition isin (values : list A) (x : A) : bool := existsb (eqb x) values.

(** How often [x] occurs in a column. *)
Definition count_of (x : A) (l : list A) : nat :=
  List.length (filter (eqb x) l).

End Columns.

(** Equality of label cells; pandas' [isin] and [unique] treat NaN as equal
    to NaN. *)
Definition label_eqb (a b : option string) : bool :=
  match a, b with
  | Some x, Some y => String.eqb x y
  | None, None => true
  | _, _ => false
  end.

(** [Series.dropna()] on a label column. *)
Fixpoint dropna (l : list (option string)) : list string :=
  match l with
  | [] => []
  | Some x :: t => x :: dropna t
  | None :: t => dropna t
  end.

Section Sorting.
Context {A : Type} (leb : A -> A -> bool).

Fixpoint insert_sorted (x : A) (l : list A) : list A :=
  match l with
  | [] => [x]
  | y :: t => if leb x y then x :: y :: t else y :: insert_sorted x t
  end.

(** A stable ascending sort: of two elements that compare equal, the one
    that comes first in the input comes first in the output. *)
Fixpoint stable_sort (l : list A) : list A :=
  match l with
  | [] => []
  | x :: t => insert_sorted x (stable_sort t)
  end.

(** [sort_values(ascending=False)].  pandas' [nargsort] reverses the values,
    sorts them ascending and reverses the result.  The sort is numpy's
    default kind (quicksort): arrays of at most 16 elements are sorted by
    insertion, which keeps equal elements in their order, and this function
    is that sort.  On longer arrays numpy partitions first and fixes no
    order among equal elements; there the function gives one of the orders
    the sort may produce, and the properties below claim an order of ties
    for at most 16 elements only. *)
Definition sort_descending (l : list A) : list A :=
  rev (stable_sort (rev l)).

End Sorting.

(** Order of group keys: strings by code unit, pairs lexicographically. *)
Definition route_leb (a b : string * string) : bool :=
  if String.ltb (fst a) (fst b) then true
  else if String.eqb (fst a) (fst b) then String.leb (snd a) (snd b)
  else false.

Definition route_eqb (a b : string * string) : bool :=
  String.eqb (fst a) (fst b) && String.eqb (snd a) (snd b).

(** [Series.value_counts()]: the distinct non-null values in order of first
    appearance with their counts, sorted by descending count. *)
Definition value_counts (l : list string) : list (string * nat) :=
  sort_descending (fun a b => Nat.leb (snd a) (snd b))
    (map (fun x => (x, count_of String.eqb x l)) (unique String.eqb l)).

(** [Series.sum()] and [Series.mean()]; the mean of no value is NaN. *)
Definition Zsum (l : list Z) : Z := fold_right Z.add 0 l.

Definition Qsum (l : list Q) : Q := fold_right Qplus 0%Q l.

Definition mean (l : list Q) : option Q :=
  match l with
  | [] => None
  | _ => Some (Qsum l / inject_Z (Z.of_nat (List.length l)))%Q
  end.

(** [Series.min()] and [Series.max()]; NaN on an empty column. *)
Definition series_min (l : list Q) : option Q :=
  match l with
  | [] => None
  | x :: t => Some (fold_left Qmin t x)
  end.

Definition series_max (l : list Q) : option Q :=
  match l with
  | [] => None
  | x :: t => Some (fold_left Qmax t x)
  end.

(** [Series.median()]: the middle of the sorted values, or the mean of the
    two middle ones. *)
Definition median (l : list Q) : option Q :=
  let s := stable_sort Qle_bool l in
  let n := List.length s in
  match n with
  | O => None
  | _ =>
      if Nat.even n
      then Some ((nth (n / 2 - 1) s 0%Q + nth (n / 2) s 0%Q) / 2)%Q
      else Some (nth (n / 2) s 0%Q)
  end.

(** [groupby(key)]: the groups, by ascending key. *)
Definition groupby {K : Type} (eqb leb : K -> K -> bool) (key : Row -> K)
    (df : DataFrame) : list (K * DataFrame) :=
  map (fun k => (k, filter (fun r => eqb k (key r)) df))
      (stable_sort leb (unique eqb (map key df))).

(** ** Python numbers and formatting *)

(** [int(x)] of a float: truncation towards zero. *)
Definition py_int (q : Q) : Z := Z.quot (Qnum q) (Zpos (Qden q)).

(** Rounding to the nearest integer, halves to the even one: the rule of
    [round] and of the [f] format. *)
Definition round_half_even (q : Q) : Z :=
  let f := Qfloor q in
  match Qcompare (q - inject_Z f) (1 # 2) with
  | Lt => f
  | Gt => f + 1
  | Eq => if Z.even f then f else f + 1
  end.

(** Binary floating point.  A binary64 number of magnitude in
    [2^e, 2^(e+1)) is a multiple of 2^(e-52); [binade q] is that exponent
    [e], and [fl q] the binary64 number nearest to [q], halves to the even
    multiple: the rounding of every float64 operation.  The exponent is not
    bounded here (no overflow, no subnormal numbers): the numbers rounded
    below are 64-bit integers, their quotients and a product with 100. *)
Definition binade (q : Q) : Z :=
  let a := Z.abs (Qnum q) in
  let d := Zpos (Qden q) in
  let k := Z.log2 a - Z.log2 d in
  if Z.leb (d * 2 ^ Z.max 0 k) (a * 2 ^ Z.max 0 (- k)) then k else k - 1.

Definition fl (q : Q) : Q :=
  if Qeq_bool q 0 then 0%Q
  else
    let ulp := (2 ^ (binade q - 52))%Q in
    Qred (inject_Z (round_half_even (q / ulp)) * ulp).

(** The largest relative change of one rounding, 2^-53. *)
Definition half_ulp : Q := 1 # 9007199254740992.

(** [round(x, 2)], on the exact value.  The script rounds the binary64
    mean; the two can differ in the last digit where the exact value lies
    half way between two hundredths. *)
Definition round2 (q : Q) : Q := inject_Z (round_half_even (q * 100)) / 100.

Definition string_of_Z (n : Z) : string :=
  NilZero.string_of_uint (N.to_uint (Z.to_N n)).

Definition string_of_nat (n : nat) : string := string_of_Z (Z.of_nat n).

(** Thousands separators, on the digits from the least significant one. *)
Fixpoint commas_rev (i : nat) (ds : list ascii) : list ascii :=
  match ds with
  | [] => []
  | d :: t =>
      if (Nat.ltb 0 i && Nat.eqb (i mod 3) 0)%bool
      then ","%char :: d :: commas_rev (S i) t
      else d :: commas_rev (S i) t
  end.

Definition with_commas (digits : string) : string :=
  string_of_list_ascii (rev (commas_rev 0 (rev (list_ascii_of_string digits)))).

(** [f"{n:,}"] for an integer [n >= 0]. *)
Definition format_int_commas (n : Z) : string := with_commas (string_of_Z n).

Fixpoint pad_zeros (width : nat) (s : string) : string :=
  if Nat.ltb (String.length s) width
  then match width with
       | O => s
       | S w => pad_zeros w ("0" ++ s)
       end
  else s.

(** [f"{x:.{places}f}"] and [f"{x:,.{places}f}"]. *)
Definition format_fixed (commas : bool) (places : nat) (q : Q) : string :=
  let scale := 10 ^ Z.of_nat places in
  let t := Z.abs (round_half_even (q * inject_Z scale)) in
  let whole := string_of_Z (t / scale) in
  (if Qlt_bool q 0 then "-" else "")
  ++ (if commas then with_commas whole else whole)
  ++ "." ++ pad_zeros places (string_of_Z (t mod scale)).

(** ** The price histogram *)

(** [np.linspace(mn, mx, n + 1)]: [n + 1] evenly spaced edges. *)
Definition linspace (mn mx : Q) (n : nat) : list Q :=
  map (fun i => (mn + inject_Z (Z.of_nat i) * ((mx - mn) / inject_Z (Z.of_nat n)))%Q)
      (seq 0 (S n)).

(** pandas' [_nbins_to_bins] for [right=True]: the edges of [nbins] bins over
    the values.  When all values are equal the range is widened by 0.1% of
    the value (by 0.001 around zero) on both sides; otherwise the lowest
    edge is lowered by 0.1% of the range, so that the minimum falls inside
    the first bin.  A bin count below one and an empty column raise
    ValueError ([None]).  The edges are exact rationals and increase
    strictly, so pandas' check for duplicate edges has nothing to
    reject. *)
Definition nbins_to_bins (xs : list Q) (nbins : Z) : option (list Q) :=
  if Z.ltb nbins 1 then None
  else
    match series_min xs, series_max xs with
    | Some mn, Some mx =>
        if Qeq_bool mn mx then
          let mn' := (mn - (if Qeq_bool mn 0 then 1 # 1000 else (1 # 1000) * Qabs mn))%Q in
          let mx' := (mx + (if Qeq_bool mx 0 then 1 # 1000 else (1 # 1000) * Qabs mx))%Q in
          Some (linspace mn' mx' (Z.to_nat nbins))
        else
          match linspace mn mx (Z.to_nat nbins) with
          | [] => Some []
          | b0 :: bs => Some ((b0 - (mx - mn) * (1 # 1000))%Q :: bs)
          end
    | _, _ => None
    end.

(** An interval (lower, upper] and a number of values: a bin of the cut
    with its count, or a label interval of the histogram with the count
    shown under it. *)
Record Bucket := mkBucket {
  lower : Q;
  upper : Q;
  tally : nat
}.

(** The cut: the bins between consecutive edges, each with the number of
    values that fall in it.  With [include_lowest=True] a value equal to
    the lowest edge counts in the first bin. *)
Fixpoint buckets_of (first : bool) (edges : list Q) (xs : list Q) : list Bucket :=
  match edges with
  | lo :: ((hi :: _) as rest) =>
      mkBucket lo hi
        (List.length
           (filter (fun x => (Qlt_bool lo x || (first && Qeq_bool x lo)) && Qle_bool x hi) xs))
      :: buckets_of false rest xs
  | _ => []
  end.

Definition bucket_index_leb (a b : Bucket) : bool :=
  if Qlt_bool (lower a) (lower b) then true
  else if Qeq_bool (lower a) (lower b) then Qle_bool (upper a) (upper b)
  else false.

(** ** Interval labels

    pandas shows each bin under a label interval whose edges are the cut
    edges rounded for display. *)

(** [- floor(log10(x))] for [0 < x < 1]: the number of decimal shifts that
    bring [x] to 1 or above. *)
Fixpoint decimal_shifts (fuel : nat) (x : Q) : Z :=
  match fuel with
  | O => 1
  | S fuel' =>
      if Qle_bool 1 (x * 10) then 1 else 1 + decimal_shifts fuel' (x * 10)
  end.

Definition floor_log10 (x : Q) : Z := - decimal_shifts (Pos.size_nat (Qden x)) x.

(** [np.around(x, decimals)]. *)
Definition around (x : Q) (decimals : Z) : Q :=
  Qred (inject_Z (round_half_even (x * 10 ^ decimals)) / 10 ^ decimals).

(** pandas' [_round_frac]: a number with no integral part keeps [precision]
    significant digits, any other [precision] decimals. *)
Definition round_frac (x : Q) (precision : Z) : Q :=
  if Qeq_bool x 0 then x
  else
    let whole := py_int x in
    let frac := (x - inject_Z whole)%Q in
    let digits :=
      if Z.eqb whole 0 then - floor_log10 (Qabs frac) - 1 + precision else precision in
    around x digits.

Definition all_distinct (l : list Q) : bool :=
  Nat.eqb (List.length (unique Qeq_bool l)) (List.length l).

(** pandas' [_infer_precision]: the first precision from [base_precision]
    up to 19 at which the rounded edges are all distinct, and
    [base_precision] when there is none. *)
Definition infer_precision (base_precision : Z) (bins : list Q) : Z :=
  match find (fun precision => all_distinct (map (fun b => round_frac b precision) bins))
             (map (fun i => base_precision + Z.of_nat i)
                  (seq 0 (Z.to_nat (20 - base_precision)))) with
  | Some precision => precision
  | None => base_precision
  end.

(** pandas' [_format_labels] for [right=True] and [include_lowest=True]: the
    breaks of the label intervals are the rounded edges, the first one
    lowered by one unit of the last digit kept. *)
Definition format_labels (bins : list Q) : list Q :=
  let precision := infer_precision 3 bins in
  match map (fun b => round_frac b precision) bins with
  | [] => []
  | b0 :: breaks => (b0 - 10 ^ (- precision))%Q :: breaks
  end.

(** The counted bins under their labels: the i-th bin gets the interval
    between the i-th and the next break. *)
Fixpoint relabel (breaks : list Q) (counted : list Bucket) : list Bucket :=
  match breaks, counted with
  | lo :: ((hi :: _) as rest), b :: t => mkBucket lo hi (tally b) :: relabel rest t
  | _, _ => []
  end.

Definition interval_eqb (a b : Bucket) : bool :=
  Qeq_bool (lower a) (lower b) && Qeq_bool (upper a) (upper b).

(** The labels are the categories of the cut: bins whose labels are equal
    fall into one category, which counts the values of all of them. *)
Definition merge_labels (l : list Bucket) : list Bucket :=
  map (fun c => mkBucket (lower c) (upper c)
                  (list_sum (map tally (filter (interval_eqb c) l))))
      (unique interval_eqb l).

(** Consecutive edges are more than [gap] apart. *)
Definition apart (gap : Q) (edges : list Q) : Prop :=
  StronglySorted (fun a b => (a + gap < b)%Q) edges.

(** [.sort_index()] on the interval index: ascending by lower edge, then by
    upper edge. *)
Definition sort_index (l : list Bucket) : list Bucket :=
  stable_sort bucket_index_leb l.

(** [Series.value_counts(bins=nbins)]: the values are cut at the edges
    ([include_lowest=True]) and counted by bin; the result lists every
    label interval with the count of its bin, by ascending interval, and is
    then sorted by descending count.  Only the labels are rounded: the
    counts are those of the unrounded edges. *)
Definition value_counts_bins (xs : list Q) (nbins : Z) : option (list Bucket) :=
  match nbins_to_bins xs nbins with
  | None => None
  | Some bins =>
      let counted := buckets_of true bins xs in
      let result := sort_index (merge_labels (relabel (format_labels bins) counted)) in
      let result := if forallb (fun b => Nat.eqb (tally b) 0) result then [] else result in
      Some (sort_descending (fun a b => Nat.leb (tally a) (tally b)) result)
  end.

Definition price_histogram (view : DataFrame) (nbins : Z) : option (list Bucket) :=
  option_map sort_index (value_counts_bins (map Price view) nbins).

(** ** Widgets and page elements *)

(** The values the widgets hold in the session: what the user has selected. *)
Record Widgets := mkWidgets {
  w_vehicle_types   : list string;
  w_trip_reasons    : list string;
  w_domestic_filter : list Z;
  w_cancel_filter   : list Z;
  w_price_range     : Z * Z;
  w_gender_filter   : list (option string);
  w_price_bins      : Z
}.

(** A value shown as an option of a widget or as a category of a chart. *)
Inductive Cell :=
| CStr (s : string)
| CInt (z : Z)
| CNaN
| CInterval (lo hi : Q).

Definition cell_of_label (g : option string) : Cell :=
  match g with
  | Some s => CStr s
  | None => CNaN
  end.

(** One line of the per-vehicle summary table. *)
Record SummaryRow := mkSummaryRow {
  sr_vehicle      : string;
  sr_price_count  : nat;
  sr_price_mean   : option Q;
  sr_price_median : option Q;
  sr_cancel_mean  : option Q;
  sr_days_mean    : option Q
}.

Inductive Table :=
| SummaryTable (rows : list SummaryRow)
| RouteTable (rows : list (string * string * nat))
| FrameTable (rows : DataFrame).

(** What the script puts on the page, in the order of the calls. *)
Inductive Element :=
| title (body : string)
| markdown (body : string)
| sidebar_header (body : string)
| sidebar_multiselect (label : string) (options default : list Cell)
| sidebar_slider (label : string) (min_value max_value : Z) (value : Z * Z)
| warning (body : string)
| subheader (body : string)
| metric (label value : string)
| bar_chart (series : list (Cell * option Q))
| slider (label : string) (min_value max_value value : Z)
| write (body : string)
| dataframe (data : Table)
| expander (label : string) (body : list Element).

(** ** The script monad

    A run of the script prints elements and then either goes on with a
    value, is ended by [st.stop()], or dies with an exception. *)
Inductive Flow (A : Type) :=
| Continue (a : A)
| Stopped
| Raised (error : string).

Arguments Continue {A} a.
Arguments Stopped {A}.
Arguments Raised {A} error.

Definition App (A : Type) : Type := list Element * Flow A.

Definition ret {A : Type} (a : A) : App A := ([], Continue a).

Definition bind {A B : Type} (m : App A) (k : A -> App B) : App B :=
  match m with
  | (out, Continue a) => let (out', f) := k a in ((out ++ out')%list, f)
  | (out, Stopped) => (out, Stopped)
  | (out, Raised e) => (out, Raised e)
  end.

Definition emit (e : Element) : App unit := ([e], Continue tt).

Definition st_stop {A : Type} : App A := ([], Stopped).

Definition raise {A : Type} (error : string) : App A := ([], Raised error).

Declare Scope app_scope.
Delimit Scope app_scope with app.
Notation "x <- m ;; k" := (bind m (fun x => k))
  (at level 61, m at next level, right associativity) : app_scope.
Notation "m ;; k" := (bind m (fun _ => k))
  (at level 61, right associativity) : app_scope.

(** The elements a run printed, and how it ended. *)
Definition printed {A : Type} (m : App A) : list Element := fst m.

Definition ending {A : Type} (m : App A) : Flow A := snd m.

(** A widget prints itself and returns the value it holds. *)
Definition st_sidebar_multiselect {A : Type} (show : A -> Cell) (label : string)
    (options default selection : list A) : App (list A) :=
  (emit (sidebar_multiselect label (map show options) (map show default)) ;;
   ret selection)%app.

Definition st_sidebar_slider (label : string) (min_value max_value : Z)
    (value selection : Z * Z) : App (Z * Z) :=
  (emit (sidebar_slider label min_value max_value value) ;; ret selection)%app.

Definition st_slider (label : string) (min_value max_value value selection : Z) : App Z :=
  (emit (slider label min_value max_value value) ;; ret selection)%app.

(** [float(...)] values print as [nan] when missing. *)
Definition format_float (commas : bool) (places : nat) (x : option Q) : string :=
  match x with
  | Some q => format_fixed commas places q
  | None => "nan"
  end.

(** ** Filtering (script lines 93-111) *)

Definition nonempty {A : Type} (l : list A) : bool :=
  match l with
  | [] => false
  | _ :: _ => true
  end.

Definition in_price_range (range : Z * Z) (r : Row) : bool :=
  Qle_bool (inject_Z (fst range)) (Price r) && Qle_bool (Price r) (inject_Z (snd range)).

(** [df_selection]: each categorical filter is applied only when its
    selection is not empty; the price filter is always applied. *)
Definition df_selection (df : DataFrame) (w : Widgets) : DataFrame :=
  let df_selection := df in
  let df_selection :=
    if nonempty (w_vehicle_types w)
    then filter (fun r => isin String.eqb (w_vehicle_types w) (Vehicle r)) df_selection
    else df_selection in
  let df_selection :=
    if nonempty (w_trip_reasons w)
    then filter (fun r => isin String.eqb (w_trip_reasons w) (TripReason r)) df_selection
    else df_selection in
  let df_selection :=
    if nonempty (w_domestic_filter w)
    then filter (fun r => isin Z.eqb (w_domestic_filter w) (Domestic r)) df_selection
    else df_selection in
  let df_selection :=
    if nonempty (w_cancel_filter w)
    then filter (fun r => isin Z.eqb (w_cancel_filter w) (Cancel r)) df_selection
    else df_selection in
  let df_selection :=
    if nonempty (w_gender_filter w)
    then filter (fun r => isin label_eqb (w_gender_filter w) (Gender r)) df_selection
    else df_selection in
  filter (in_price_range (w_price_range w)) df_selection.

(** [DataFrame.empty]. *)
Definition empty (df : DataFrame) : bool := negb (nonempty df).

(** ** Metrics, charts and tables over the selection *)

Definition total_tickets (view : DataFrame) : nat := List.length view.

Definition avg_price (view : DataFrame) : option Q :=
  option_map round2 (mean (map Price view)).

(** [(df_selection["Cancel"].sum() / len(df_selection)) * 100].  The sum is
    a numpy int64 and the length a Python int: the division converts both
    to binary64 and rounds the quotient, and the product with 100 is
    rounded again.  A division by a zero length gives no number. *)
Definition cancellation_rate (view : DataFrame) : option Q :=
  match List.length view with
  | O => None
  | n =>
      let total := fl (inject_Z (Zsum (map Cancel view))) in
      let count := fl (inject_Z (Z.of_nat n)) in
      Some (fl (fl (total / count) * 100))
  end.

Definition avg_discount (view : DataFrame) : option Q :=
  option_map round2 (mean (map CouponDiscount view)).

Definition cancel_column (g : DataFrame) : list Q := map (fun r => inject_Z (Cancel r)) g.

Definition days_column (g : DataFrame) : list Q :=
  map (fun r => inject_Z (DaysUntilDeparture r)) g.

Definition by_vehicle (view : DataFrame) : list (string * DataFrame) :=
  groupby String.eqb String.leb Vehicle view.

Definition vehicle_counts (view : DataFrame) : list (string * nat) :=
  value_counts (map Vehicle view).

Definition avg_price_vehicle (view : DataFrame) : list (string * option Q) :=
  map (fun kg => (fst kg, mean (map Price (snd kg)))) (by_vehicle view).

Definition avg_price_reason (view : DataFrame) : list (string * option Q) :=
  map (fun kg => (fst kg, mean (map Price (snd kg))))
      (groupby String.eqb String.leb TripReason view).

Definition cancel_by_vehicle (view : DataFrame) : list (string * option Q) :=
  map (fun kg => (fst kg, option_map (fun m => m * 100)%Q (mean (cancel_column (snd kg)))))
      (by_vehicle view).

(** [value_counts()] drops the rows whose [Gender] is NaN. *)
Definition gender_counts (view : DataFrame) : list (string * nat) :=
  value_counts (dropna (map Gender view)).

Definition avg_days (view : DataFrame) : list (string * option Q) :=
  map (fun kg => (fst kg, mean (days_column (snd kg)))) (by_vehicle view).

Definition summary_table (view : DataFrame) : list SummaryRow :=
  map (fun kg =>
         let g := snd kg in
         {| sr_vehicle := fst kg;
            sr_price_count := List.length g;
            sr_price_mean := option_map round2 (mean (map Price g));
            sr_price_median := option_map round2 (median (map Price g));
            sr_cancel_mean := option_map round2 (mean (cancel_column g));
            sr_days_mean := option_map round2 (mean (days_column g)) |})
      (by_vehicle view).

Definition route (r : Row) : string * string := (From r, To r).

(** [groupby(['From', 'To']).size()]: the routes by ascending key, each with
    its number of rows. *)
Definition route_sizes (view : DataFrame) : list (string * string * nat) :=
  map (fun kg => (fst kg, List.length (snd kg))) (groupby route_eqb route_leb route view).

(** [.sort_values(ascending=False).head(10)]. *)
Definition route_counts (view : DataFrame) : list (string * string * nat) :=
  firstn 10 (sort_descending (fun a b => Nat.leb (snd a) (snd b)) (route_sizes view)).

Definition count_series (l : list (string * nat)) : list (Cell * option Q) :=
  map (fun kc => (CStr (fst kc), Some (inject_Z (Z.of_nat (snd kc))))) l.

Definition value_series (l : list (string * option Q)) : list (Cell * option Q) :=
  map (fun kv => (CStr (fst kv), snd kv)) l.

Definition bucket_series (l : list Bucket) : list (Cell * option Q) :=
  map (fun b => (CInterval (lower b) (upper b), Some (inject_Z (Z.of_nat (tally b))))) l.

(** ** The script *)

(** Lines 121-138. *)
Definition key_metrics (view : DataFrame) : App unit :=
  (emit (subheader "📊 Key Metrics") ;;
   emit (metric "Total Tickets" (format_int_commas (Z.of_nat (total_tickets view)))) ;;
   emit (metric "Average Price" ("$" ++ format_float true 2 (avg_price view))) ;;
   emit (metric "Cancellation Rate" (format_float false 1 (cancellation_rate view) ++ "%")) ;;
   emit (metric "Average Discount" ("$" ++ format_float true 2 (avg_discount view))) ;;
   emit (markdown "---"))%app.

(** Lines 142-193.  The bin slider runs from 10 to 100 and starts at 50. *)
Definition visualizations (view : DataFrame) (w : Widgets) : App unit :=
  (emit (subheader "📈 Visualizations") ;;
   emit (subheader "Ticket Count by Vehicle Type") ;;
   emit (bar_chart (count_series (vehicle_counts view))) ;;
   emit (subheader "Average Price by Vehicle Type") ;;
   emit (bar_chart (value_series (avg_price_vehicle view))) ;;
   emit (subheader "Average Price by Trip Reason") ;;
   emit (bar_chart (value_series (avg_price_reason view))) ;;
   emit (subheader "Cancellation Rate by Vehicle Type") ;;
   emit (bar_chart (value_series (cancel_by_vehicle view))) ;;
   emit (subheader "Tickets by Gender") ;;
   emit (bar_chart (count_series (gender_counts view))) ;;
   emit (subheader "Average Days Until Departure") ;;
   emit (bar_chart (value_series (avg_days view))) ;;
   emit (subheader "Price Distribution") ;;
   price_bins <- st_slider "Number of bins" 10 100 50 (w_price_bins w) ;;
   match price_histogram view price_bins with
   | Some hist => emit (bar_chart (bucket_series hist))
   | None => raise "ValueError"
   end)%app.

(** Lines 195-218. *)
Definition data_tables (extra_columns : nat) (view : DataFrame) : App unit :=
  (emit (subheader "📋 Data Summary Tables") ;;
   emit (write "**Summary by Vehicle Type:**") ;;
   emit (dataframe (SummaryTable (summary_table view))) ;;
   emit (write "**Top 10 Routes:**") ;;
   emit (dataframe (RouteTable (route_counts view))) ;;
   emit (expander "View Raw Data"
           [dataframe (FrameTable view);
            markdown ("**Data Dimensions:** " ++ string_of_nat (List.length view)
                      ++ " rows, " ++ string_of_nat (14 + extra_columns) ++ " columns")]) ;;
   emit (markdown "---") ;;
   emit (write "Data Source: Travel Tickets Dataset"))%app.

(** [int(df["Price"].min()), int(df["Price"].max())]; [int] of the NaN that
    an empty column gives raises ValueError. *)
Definition price_bounds (df : DataFrame) : App (Z * Z) :=
  match series_min (map Price df), series_max (map Price df) with
  | Some mn, Some mx => ret (py_int mn, py_int mx)
  | _, _ => raise "ValueError: cannot convert float NaN to integer"
  end.

(** The sidebar (lines 45-90): every multiselect offers the distinct values
    of its column in the loaded table and starts with all of them. *)
Definition sidebar (df : DataFrame) (w : Widgets) : App Widgets :=
  (emit (sidebar_header "Filter Your Data") ;;
   vehicle_types <-
     st_sidebar_multiselect CStr "Select Vehicle Type"
       (unique String.eqb (map Vehicle df)) (unique String.eqb (map Vehicle df))
       (w_vehicle_types w) ;;
   trip_reasons <-
     st_sidebar_multiselect CStr "Select Trip Reason"
       (unique String.eqb (map TripReason df)) (unique String.eqb (map TripReason df))
       (w_trip_reasons w) ;;
   domestic_filter <-
     st_sidebar_multiselect CInt "Select Trip Type"
       (unique Z.eqb (map Domestic df)) (unique Z.eqb (map Domestic df))
       (w_domestic_filter w) ;;
   cancel_filter <-
     st_sidebar_multiselect CInt "Select Cancel Status"
       (unique Z.eqb (map Cancel df)) (unique Z.eqb (map Cancel df))
       (w_cancel_filter w) ;;
   bounds <- price_bounds df ;;
   price_range <-
     st_sidebar_slider "Select Price Range" (fst bounds) (snd bounds) bounds
       (w_price_range w) ;;
   gender_filter <-
     st_sidebar_multiselect cell_of_label "Select Gender"
       (unique label_eqb (map Gender df)) (unique label_eqb (map Gender df))
       (w_gender_filter w) ;;
   ret (mkWidgets vehicle_types trip_reasons domestic_filter cancel_filter
          price_range gender_filter (w_price_bins w)))%app.

Definition no_data_warning : string :=
  "No data available for the selected filters. Please adjust your selection.".

(** Lines 38-90: the title, the description and the sidebar. *)
Definition header_and_sidebar (df : DataFrame) (w : Widgets) : App Widgets :=
  (emit (title "✈️ Travel Tickets Data Analysis") ;;
   emit (markdown "
This application performs exploratory data analysis (EDA) on the Travel Tickets dataset.
Use the filters in the sidebar to explore different aspects of ticket sales and customer behavior.
") ;;
   sidebar df w)%app.

(** The whole script, run on the loaded table [df] with the widgets holding
    [w].  [extra_columns] is the number of CSV columns the script never
    reads; it only shows in the printed dimensions.  The layout calls
    ([set_page_config], [columns]) print nothing. *)
Definition streamlit_app (extra_columns : nat) (df : DataFrame) (w : Widgets) : App unit :=
  (selected <- header_and_sidebar df w ;;
   let view := df_selection df selected in
   (if empty view
    then emit (warning no_data_warning) ;; st_stop
    else ret tt) ;;
   key_metrics view ;;
   visualizations view selected ;;
   data_tables extra_columns view)%app.

(** The values the widgets hold on the first run: their defaults. *)
Definition default_widgets (df : DataFrame) : option Widgets :=
  match series_min (map Price df), series_max (map Price df) with
  | Some mn, Some mx =>
      Some {| w_vehicle_types := unique String.eqb (map Vehicle df);
              w_trip_reasons := unique String.eqb (map TripReason df);
              w_domestic_filter := unique Z.eqb (map Domestic df);
              w_cancel_filter := unique Z.eqb (map Cancel df);
              w_price_range := (py_int mn, py_int mx);
              w_gender_filter := unique label_eqb (map Gender df);
              w_price_bins := 50 |}
  | _, _ => None
  end.

(** ** The filter, dimension by dimension

    The predicate each dimension contributes, written after the contract of
    the filtered view: a categorical dimension asks for membership in its
    selection when the selection is not empty, the price dimension for a
    price inside the closed range.  [apply_filters] applies predicates one
    after the other, in the order of the list. *)
Definition selected_or_unfiltered {A : Type} (eqb : A -> A -> bool)
    (selection : list A) (x : A) : bool :=
  negb (nonempty selection) || isin eqb selection x.

Definition dimension_filters (w : Widgets) : list (Row -> bool) :=
  [ fun r => selected_or_unfiltered String.eqb (w_vehicle_types w) (Vehicle r);
    fun r => selected_or_unfiltered String.eqb (w_trip_reasons w) (TripReason r);
    fun r => selected_or_unfiltered Z.eqb (w_domestic_filter w) (Domestic r);
    fun r => selected_or_unfiltered Z.eqb (w_cancel_filter w) (Cancel r);
    fun r => selected_or_unfiltered label_eqb (w_gender_filter w) (Gender r);
    in_price_range (w_price_range w) ].

Definition apply_filters (ps : list (Row -> bool)) (df : DataFrame) : DataFrame :=
  fold_left (fun acc p => filter p acc) ps df.

(** ** Kinds of page elements *)

(** The page title, its description and the sidebar controls. *)
Definition is_page_chrome (e : Element) : bool :=
  match e with
  | title _ | markdown _ | sidebar_header _
  | sidebar_multiselect _ _ _ | sidebar_slider _ _ _ _ => true
  | _ => false
  end.







(** ** Sample data *)

Definition sample_csv_row (price : Q) : CsvRow :=
  mkCsvRow "Plane" "Work" 1 0 price 0 1 "Tehran" "Mashhad" 0 ns_per_day.

(** Two tickets at 10.5 and 20.5 currency units. *)
Definition fractional_prices : DataFrame :=
  load_data [sample_csv_row (21 # 2); sample_csv_row (41 # 2)].

(** One ticket, and widgets whose price range holds no ticket. *)
Definition one_ticket : DataFrame := load_data [sample_csv_row (1000000 # 1)].

Definition nothing_selected : Widgets := mkWidgets [] [] [] [] (0, 5) [] 50.

Definition labelled (g : option string) : bool :=
  match g with
  | Some _ => true
  | None => false
  end.

(** A view of [n] tickets of which the first [c] are cancelled. *)
Definition cancel_row (cancelled : Z) : Row :=
  derive (mkCsvRow "Bus" "Work" 1 cancelled (500000 # 1) 0 0 "Tehran" "Shiraz" 0 ns_per_day).

Definition view_with_cancellations (n c : nat) : DataFrame :=
  (repeat (cancel_row 1) c ++ repeat (cancel_row 0) (n - c))%list.

(** ** The order of the top routes

    [route_lt] is the strict order of group keys.  [ranks_before] is the
    order of the ranking: higher counts first and, among equal counts, the
    smaller key first.  [first_seen] and [ties_in_first_seen_order] spell
    out the other reading of the tie rule, by position in the table. *)
Definition route_lt (a b : string * string) : Prop :=
  String.compare (fst a) (fst b) = Lt
  \/ (fst a = fst b /\ String.compare (snd a) (snd b) = Lt).

Definition ranks_before (a b : string * string * nat) : Prop :=
  (snd b < snd a)%nat \/ (snd a = snd b /\ route_lt (fst a) (fst b)).



Definition route_row (from to : string) : Row :=
  derive (mkCsvRow "Bus" "Work" 1 0 (500000 # 1) 0 1 from to 0 ns_per_day).


(** Fifteen tickets A -> B, then fifteen C -> D, then five E -> F. *)
Definition three_routes : DataFrame :=
  (repeat (route_row "A" "B") 15 ++ repeat (route_row "C" "D") 15
   ++ repeat (route_row "E" "F") 5)%list.

(** ** The shape of a histogram *)

(** Each bin ends where the next one starts. *)
Fixpoint contiguous (l : list Bucket) : Prop :=
  match l with
  | a :: ((b :: _) as t) => upper a = lower b /\ contiguous t
  | _ => True
  end.

Definition width (b : Bucket) : Q := upper b - lower b.

(** Consecutive edges are [step] apart. *)
Fixpoint evenly_spaced (step : Q) (edges : list Q) : Prop :=
  match edges with
  | a :: ((b :: _) as t) => (b - a == step)%Q /\ evenly_spaced step t
  | _ => True
  end.

(** Two tickets, at prices 0 and 10. *)
Definition zero_and_ten : DataFrame := load_data [sample_csv_row 0; sample_csv_row (10 # 1)].

(** Three tickets, at prices 1.00, 1.01 and 1.99. *)
Definition three_close_prices : DataFrame :=
  load_data [sample_csv_row 1; sample_csv_row (101 # 100); sample_csv_row (199 # 100)].

(** ** Sample columns *)

Definition four_prices : list Q := [30 # 1; 10 # 1; 40 # 1; 20 # 1]%Q.

(** ** Reading a printed count back *)

(** The text of a count with its thousands separators dropped, and the
    number its digits spell. *)
Definition without_commas (s : string) : string :=
  string_of_list_ascii
    (filter (fun c => negb (Ascii.eqb c ","%char)) (list_ascii_of_string s)).

Definition parse_count (s : string) : option Z :=
  option_map (fun d => Z.of_N (N.of_uint d)) (NilZero.uint_of_string (without_commas s)).

(* ================================================================== *)
(** * Part II: properties *)
(* ================================================================== *)

(** ** Derived columns *)

Lemma Qlt_bool_iff (x y : Q) : Qlt_bool x y = true <-> (x < y)%Q.
Proof.
  unfold Qlt_bool. rewrite negb_true_iff.
  split; intro H.
  - apply Qnot_le_lt. intro Hle. apply Qle_bool_iff in Hle. congruence.
  - destruct (Qle_bool y x) eqn:E; trivial.
    apply Qle_bool_iff in E. exfalso. exact (Qlt_not_le _ _ H E).
Qed.

Lemma Qlt_bool_false_iff (x y : Q) : Qlt_bool x y = false <-> (y <= x)%Q.
Proof.
  unfold Qlt_bool. rewrite negb_false_iff. apply Qle_bool_iff.
Qed.

Lemma Qle_bool_false_iff (x y : Q) : Qle_bool x y = false <-> (y < x)%Q.
Proof.
  rewrite <- Qlt_bool_iff. unfold Qlt_bool.
  destruct (Qle_bool x y); simpl; intuition congruence.
Qed.

Ltac q_bool :=
  repeat match goal with
  | H : Qle_bool _ _ = true |- _ => apply Qle_bool_iff in H
  | H : Qle_bool _ _ = false |- _ => apply Qle_bool_false_iff in H
  | H : Qlt_bool _ _ = true |- _ => apply Qlt_bool_iff in H
  | H : Qlt_bool _ _ = false |- _ => apply Qlt_bool_false_iff in H
  end.

Lemma derive_days (c : CsvRow) :
  DaysUntilDeparture (derive c) = dt_days (csv_DepartureTime c - csv_Created c).
Proof. reflexivity. Qed.

(** C9. Every row of the loaded table has [DaysUntilDeparture] equal to the
    whole-day difference between [DepartureTime] and [Created]: the integer
    [d] with [d] days <= DepartureTime - Created < [d + 1] days.  The value is
    kept as it is, and it is negative whenever the departure precedes the
    creation. *)
Theorem C9_days_until_departure (csv : list CsvRow) (r : Row) :
  In r (load_data csv) ->
  DaysUntilDeparture r = dt_days (DepartureTime r - Created r)
  /\ DaysUntilDeparture r * ns_per_day <= DepartureTime r - Created r
       < (DaysUntilDeparture r + 1) * ns_per_day
  /\ (DepartureTime r < Created r -> DaysUntilDeparture r < 0)
  /\ (Created r <= DepartureTime r -> 0 <= DaysUntilDeparture r).
Proof.
  unfold load_data. rewrite in_map_iff. intros [c [<- _]]. simpl.
  set (td := csv_DepartureTime c - csv_Created c).
  assert (Hd : 0 < ns_per_day) by (unfold ns_per_day; lia).
  unfold dt_days.
  pose proof (Z.div_mod td ns_per_day ltac:(lia)) as Hdm.
  pose proof (Z.mod_pos_bound td ns_per_day Hd) as Hb.
  repeat split.
  - nia.
  - nia.
  - intro Hlt. apply Z.div_lt_upper_bound; lia.
  - intro Hle. apply Z.div_pos; lia.
Qed.

Lemma load_data_row (csv : list CsvRow) (r : Row) :
  In r (load_data csv) ->
  PriceCategory r = price_category (Price r) /\ Gender r = gender_of (Male r).
Proof.
  unfold load_data. rewrite in_map_iff. intros [c [<- _]]. split; reflexivity.
Qed.

Lemma price_category_cases (p : Q) :
  ((p <= 0)%Q -> price_category p = None)
  /\ ((0 < p <= 1000000 # 1)%Q -> price_category p = Some "<1M")
  /\ ((1000000 # 1 < p <= 5000000 # 1)%Q -> price_category p = Some "1M-5M")
  /\ ((5000000 # 1 < p <= 10000000 # 1)%Q -> price_category p = Some "5M-10M")
  /\ ((10000000 # 1 < p)%Q -> price_category p = Some ">10M").
Proof.
  unfold price_category, price_bins_edges, price_labels, cut, edge_ltb, leb_edge.
  destruct (Qlt_bool 0 p) eqn:E0;
  destruct (Qle_bool p (1000000 # 1)) eqn:E1;
  destruct (Qlt_bool (1000000 # 1) p) eqn:E2;
  destruct (Qle_bool p (5000000 # 1)) eqn:E3;
  destruct (Qlt_bool (5000000 # 1) p) eqn:E4;
  destruct (Qle_bool p (10000000 # 1)) eqn:E5;
  destruct (Qlt_bool (10000000 # 1) p) eqn:E6;
  q_bool; cbn [andb];
  repeat split; intros; try reflexivity; exfalso; lra.
Qed.

(** C1 (as amended). [PriceCategory] depends on [Price] alone and follows the
    intervals (0, 1M], (1M, 5M], (5M, 10M], (10M, inf), each closed on the
    right: 999,999 and 1,000,000 give "<1M", 1,000,001 gives "1M-5M",
    10,000,001 gives ">10M", and a price of zero or below gives no label. *)
Theorem C1_price_category (csv : list CsvRow) (r : Row) :
  In r (load_data csv) ->
  PriceCategory r = price_category (Price r)
  /\ ((Price r <= 0)%Q -> PriceCategory r = None)
  /\ ((0 < Price r <= 1000000 # 1)%Q -> PriceCategory r = Some "<1M")
  /\ ((1000000 # 1 < Price r <= 5000000 # 1)%Q -> PriceCategory r = Some "1M-5M")
  /\ ((5000000 # 1 < Price r <= 10000000 # 1)%Q -> PriceCategory r = Some "5M-10M")
  /\ ((10000000 # 1 < Price r)%Q -> PriceCategory r = Some ">10M")
  /\ price_category (999999 # 1) = Some "<1M"
  /\ price_category (1000000 # 1) = Some "<1M"
  /\ price_category (1000001 # 1) = Some "1M-5M"
  /\ price_category (10000001 # 1) = Some ">10M".
Proof.
  intro Hin. destruct (load_data_row csv r Hin) as [Hp _].
  rewrite Hp. split; [reflexivity|].
  pose proof (price_category_cases (Price r)) as H.
  repeat split; try apply H; reflexivity.
Qed.

Lemma C1_price_category_witness :
  PriceCategory (derive (sample_csv_row (1000000 # 1))) = Some "<1M".
Proof.
  pose proof (C1_price_category [sample_csv_row (1000000 # 1)]
                (derive (sample_csv_row (1000000 # 1))) (or_introl eq_refl)) as H.
  destruct H as (_ & _ & H & _).
  apply H. simpl. split; [reflexivity | discriminate].
Defined.

(** C1, the claim as written fails: a price of exactly 1,000,000 lies in the
    right-closed interval (0, 1M] and is labelled "<1M", not "1M-5M". *)
Lemma C1_counterexample :
  ~ (forall (csv : list CsvRow) (r : Row),
       In r (load_data csv) -> (Price r == 1000000 # 1)%Q ->
       PriceCategory r = Some "1M-5M").
Proof.
  intro H.
  specialize (H [sample_csv_row (1000000 # 1)]
                (derive (sample_csv_row (1000000 # 1))) (or_introl eq_refl)).
  simpl in H. specialize (H (Qeq_refl _)). discriminate H.
Qed.

Lemma C9_days_until_departure_witness :
  DaysUntilDeparture (derive (mkCsvRow "Bus" "Int" 1 0 1 0 1 "A" "B" ns_per_day 3600)) < 0.
Proof.
  set (c := mkCsvRow "Bus" "Int" 1 0 1 0 1 "A" "B" ns_per_day 3600).
  pose proof (C9_days_until_departure [c] (derive c) (or_introl eq_refl)) as H.
  destruct H as (_ & _ & H & _).
  apply H. vm_compute. reflexivity.
Defined.

(** ** Columns: [unique], [isin] and counting *)

Section ColumnFacts.
Context {A : Type} (eqb : A -> A -> bool).
Hypothesis eqb_spec : forall x y, eqb x y = true <-> x = y.

Lemma eqb_refl' (x : A) : eqb x x = true.
Proof. apply eqb_spec. reflexivity. Qed.

Lemma isin_In (values : list A) (x : A) : isin eqb values x = true <-> In x values.
Proof.
  unfold isin. rewrite existsb_exists. split.
  - intros [y [Hy E]]. apply eqb_spec in E. subst. exact Hy.
  - intro H. exists x. split; [exact H | apply eqb_refl'].
Qed.

Lemma unique_In (l : list A) (x : A) : In x (unique eqb l) <-> In x l.
Proof.
  induction l as [|a t IH]; simpl; [tauto|].
  rewrite filter_In, IH, negb_true_iff.
  split.
  - intros [H | [H _]]; auto.
  - intros [H | H]; auto.
    destruct (eqb a x) eqn:E.
    + left. apply eqb_spec. exact E.
    + right. split; auto.
Qed.

Lemma unique_NoDup (l : list A) : NoDup (unique eqb l).
Proof.
  induction l as [|a t IH]; simpl; constructor.
  - rewrite filter_In, eqb_refl'. simpl. intros [_ H]. discriminate.
  - apply NoDup_filter. exact IH.
Qed.

Lemma filter_twice (p q : A -> bool) (l : list A) :
  filter p (filter q l) = filter (fun y => q y && p y) l.
Proof.
  induction l as [|a t IH]; simpl; [reflexivity|].
  destruct (q a); simpl; [destruct (p a)|]; rewrite IH; reflexivity.
Qed.

Lemma unique_filter (p : A -> bool) (l : list A) :
  unique eqb (filter p l) = filter p (unique eqb l).
Proof.
  induction l as [|a t IH]; simpl; [reflexivity|].
  destruct (p a) eqn:E; simpl.
  - rewrite IH. f_equal.
    rewrite !filter_twice. apply filter_ext. intro y. apply andb_comm.
  - rewrite IH.
    rewrite filter_twice.
    apply filter_ext_in. intros y Hy.
    destruct (eqb a y) eqn:E'; simpl.
    + apply eqb_spec in E'. subst. exact E.
    + reflexivity.
Qed.

Lemma count_of_filter_other (x a : A) (l : list A) :
  x <> a -> count_of eqb x (filter (fun y => negb (eqb a y)) l) = count_of eqb x l.
Proof.
  intro Hne. unfold count_of. rewrite filter_twice. f_equal.
  apply filter_ext. intro y.
  destruct (eqb x y) eqn:E; [|apply andb_false_r].
  apply eqb_spec in E. subst y.
  destruct (eqb a x) eqn:E'; [|reflexivity].
  apply eqb_spec in E'. congruence.
Qed.

Lemma filter_split_length (p : A -> bool) (l : list A) :
  (List.length (filter p l) + List.length (filter (fun y => negb (p y)) l))%nat
  = List.length l.
Proof.
  induction l as [|a t IH]; simpl; [reflexivity|].
  destruct (p a); simpl; lia.
Qed.

(** The counts of the distinct values add up to the length of the column. *)
Lemma counts_total (n : nat) : forall l : list A,
  (List.length l <= n)%nat ->
  list_sum (map (fun x => count_of eqb x l) (unique eqb l)) = List.length l.
Proof.
  induction n as [|n IH]; intros l Hlen.
  - destruct l; [reflexivity | simpl in Hlen; lia].
  - destruct l as [|a t]; [reflexivity|].
    simpl unique. simpl map. simpl list_sum.
    rewrite <- (unique_filter (fun y => negb (eqb a y)) t).
    set (t' := filter (fun y => negb (eqb a y)) t).
    assert (Hmap : map (fun x => count_of eqb x (a :: t)) (unique eqb t')
                   = map (fun x => count_of eqb x t') (unique eqb t')).
    { apply map_ext_in. intros x Hx.
      apply (proj1 (unique_In _ _)) in Hx. unfold t' in Hx.
      apply (proj1 (filter_In _ _ _)) in Hx.
      destruct Hx as [_ Hx]. apply negb_true_iff in Hx.
      assert (Hne : x <> a).
      { intro; subst. rewrite eqb_refl' in Hx. discriminate. }
      unfold t'. rewrite (count_of_filter_other x a t Hne).
      unfold count_of. simpl.
      destruct (eqb x a) eqn:E; [|reflexivity].
      apply eqb_spec in E. contradiction. }
    rewrite Hmap.
    assert (Hlen' : (List.length t' <= n)%nat).
    { unfold t'. pose proof (filter_length_le (fun y => negb (eqb a y)) t).
      simpl in Hlen. lia. }
    rewrite (IH t' Hlen').
    unfold count_of. simpl. rewrite eqb_refl'. simpl.
    pose proof (filter_split_length (eqb a) t). fold t' in H. lia.
Qed.

End ColumnFacts.

Lemma label_eqb_spec (a b : option string) : label_eqb a b = true <-> a = b.
Proof.
  destruct a as [x|], b as [y|]; simpl; try (split; congruence).
  rewrite String.eqb_eq. split; congruence.
Qed.

Lemma route_eqb_spec (a b : string * string) : route_eqb a b = true <-> a = b.
Proof.
  destruct a as [a1 a2], b as [b1 b2]. unfold route_eqb. simpl.
  rewrite andb_true_iff, !String.eqb_eq. split; [intros []|intros [=]]; subst; auto.
Qed.

(** ** Sorting *)

Section SortFacts.
Context {A : Type} (leb : A -> A -> bool).

Lemma insert_sorted_perm (x : A) (l : list A) :
  Permutation (x :: l) (insert_sorted leb x l).
Proof.
  induction l as [|y t IH]; simpl; [reflexivity|].
  destruct (leb x y); [reflexivity|].
  rewrite perm_swap. constructor. exact IH.
Qed.

Lemma stable_sort_perm (l : list A) : Permutation l (stable_sort leb l).
Proof.
  induction l as [|x t IH]; simpl; [constructor|].
  rewrite <- insert_sorted_perm. constructor. exact IH.
Qed.

Lemma sort_descending_perm (l : list A) : Permutation l (sort_descending leb l).
Proof.
  unfold sort_descending.
  rewrite <- Permutation_rev, <- stable_sort_perm, <- Permutation_rev. reflexivity.
Qed.

End SortFacts.

(** ** The filtered view *)

Lemma filter_all (p : Row -> bool) (s : DataFrame) :
  (forall r, In r s -> p r = true) -> filter p s = s.
Proof.
  intro H. apply forallb_filter_id. apply forallb_forall. exact H.
Qed.

Lemma optional_filter (A : Type) (eqb : A -> A -> bool) (selection : list A)
    (key : Row -> A) (s : DataFrame) :
  (if nonempty selection then filter (fun r => isin eqb selection (key r)) s else s)
  = filter (fun r => selected_or_unfiltered eqb selection (key r)) s.
Proof.
  unfold selected_or_unfiltered.
  destruct (nonempty selection); simpl.
  - reflexivity.
  - symmetry. apply filter_all. reflexivity.
Qed.

Lemma df_selection_steps (df : DataFrame) (w : Widgets) :
  df_selection df w = apply_filters (dimension_filters w) df.
Proof.
  unfold df_selection, apply_filters, dimension_filters. simpl.
  rewrite !optional_filter. reflexivity.
Qed.

Lemma apply_filters_conj (ps : list (Row -> bool)) : forall df,
  apply_filters ps df = filter (fun r => forallb (fun p => p r) ps) df.
Proof.
  unfold apply_filters.
  induction ps as [|p ps IH]; intro df; simpl.
  - symmetry. apply filter_all. reflexivity.
  - rewrite IH. apply filter_twice.
Qed.

Lemma forallb_perm (A : Type) (f : A -> bool) (l l' : list A) :
  Permutation l l' -> forallb f l = forallb f l'.
Proof.
  induction 1; simpl.
  - reflexivity.
  - rewrite IHPermutation. reflexivity.
  - destruct (f x), (f y); reflexivity.
  - congruence.
Qed.

Lemma df_selection_conj (df : DataFrame) (w : Widgets) :
  df_selection df w = filter (fun r => forallb (fun p => p r) (dimension_filters w)) df.
Proof.
  rewrite df_selection_steps. apply apply_filters_conj.
Qed.

Lemma df_selection_incl (df : DataFrame) (w : Widgets) (r : Row) :
  In r (df_selection df w) -> In r df.
Proof.
  rewrite df_selection_conj, filter_In. tauto.
Qed.

Lemma selected_or_unfiltered_iff (A : Type) (eqb : A -> A -> bool)
    (eqb_spec : forall x y, eqb x y = true <-> x = y) (selection : list A) (x : A) :
  selected_or_unfiltered eqb selection x = true <-> selection = [] \/ In x selection.
Proof.
  unfold selected_or_unfiltered.
  rewrite orb_true_iff, (isin_In eqb eqb_spec).
  destruct selection; simpl; intuition congruence.
Qed.

Lemma in_price_range_iff (range : Z * Z) (r : Row) :
  in_price_range range r = true
  <-> (inject_Z (fst range) <= Price r /\ Price r <= inject_Z (snd range))%Q.
Proof.
  unfold in_price_range. rewrite andb_true_iff, !Qle_bool_iff. tauto.
Qed.

(** C7. The filtered view is the rows that satisfy the conjunction of the
    six dimension predicates: membership in the selection for each
    categorical dimension whose selection is not empty (any one of the
    selected values will do), and a price inside the closed range.
    Applying the predicates one at a time gives this same view in whatever
    order they are applied. *)
Theorem C7_filter_composition (df : DataFrame) (w : Widgets) :
  (forall ps, Permutation ps (dimension_filters w) ->
              apply_filters ps df = df_selection df w)
  /\ df_selection df w
     = filter (fun r => forallb (fun p => p r) (dimension_filters w)) df
  /\ (forall r, In r (df_selection df w) <->
        In r df
        /\ (w_vehicle_types w = [] \/ In (Vehicle r) (w_vehicle_types w))
        /\ (w_trip_reasons w = [] \/ In (TripReason r) (w_trip_reasons w))
        /\ (w_domestic_filter w = [] \/ In (Domestic r) (w_domestic_filter w))
        /\ (w_cancel_filter w = [] \/ In (Cancel r) (w_cancel_filter w))
        /\ (w_gender_filter w = [] \/ In (Gender r) (w_gender_filter w))
        /\ (inject_Z (fst (w_price_range w)) <= Price r)%Q
        /\ (Price r <= inject_Z (snd (w_price_range w)))%Q).
Proof.
  split; [|split].
  - intros ps Hperm.
    rewrite df_selection_conj, apply_filters_conj.
    apply filter_ext. intro r. apply forallb_perm. exact Hperm.
  - apply df_selection_conj.
  - intro r. rewrite df_selection_conj, filter_In.
    unfold dimension_filters. cbn [forallb].
    rewrite !andb_true_iff.
    rewrite !(selected_or_unfiltered_iff _ String.eqb String.eqb_eq).
    rewrite !(selected_or_unfiltered_iff _ Z.eqb Z.eqb_eq).
    rewrite (selected_or_unfiltered_iff _ label_eqb label_eqb_spec).
    rewrite in_price_range_iff.
    intuition.
Qed.

Lemma C7_filter_composition_witness :
  let w := mkWidgets ["Plane"] [] [1] [] (0, 5000000) [Some "Male"] 50 in
  let df := load_data [sample_csv_row (1000000 # 1); sample_csv_row (6000000 # 1)] in
  apply_filters (rev (dimension_filters w)) df = df_selection df w.
Proof.
  intros w df.
  apply (proj1 (C7_filter_composition df w)).
  symmetry. apply Permutation_rev.
Defined.

Section FullSelection.
Context {A : Type} (eqb : A -> A -> bool).
Hypothesis eqb_spec : forall x y, eqb x y = true <-> x = y.

(** Selecting every distinct value of a column keeps every row of any part
    of the table. *)
Lemma full_selection_keeps (key : Row -> A) (df s : DataFrame) :
  (forall r, In r s -> In r df) ->
  filter (fun r => selected_or_unfiltered eqb (unique eqb (map key df)) (key r)) s = s.
Proof.
  intro Hincl. apply filter_all. intros r Hr.
  apply (selected_or_unfiltered_iff _ eqb eqb_spec). right.
  apply (unique_In eqb eqb_spec). apply in_map. apply Hincl. exact Hr.
Qed.

Lemma no_selection_keeps (key : Row -> A) (s : DataFrame) :
  filter (fun r => selected_or_unfiltered eqb [] (key r)) s = s.
Proof. apply filter_all. reflexivity. Qed.

End FullSelection.

Lemma filter_incl_of (p : Row -> bool) (df s : DataFrame) :
  (forall r, In r s -> In r df) -> forall r, In r (filter p s) -> In r df.
Proof. intros H r Hr. apply filter_In in Hr. apply H. tauto. Qed.

Ltac keep_all :=
  repeat first
    [ rewrite (full_selection_keeps String.eqb String.eqb_eq)
    | rewrite (full_selection_keeps Z.eqb Z.eqb_eq)
    | rewrite (full_selection_keeps label_eqb label_eqb_spec)
    | rewrite no_selection_keeps ];
  repeat apply filter_incl_of; auto.


(** ** Gender counts *)

Lemma list_sum_perm (l l' : list nat) : Permutation l l' -> list_sum l = list_sum l'.
Proof. induction 1; simpl; lia. Qed.

Lemma value_counts_total (l : list string) :
  list_sum (map snd (value_counts l)) = List.length l.
Proof.
  unfold value_counts.
  rewrite <- (list_sum_perm _ _ (Permutation_map snd (sort_descending_perm _ _))).
  rewrite map_map. simpl.
  apply (counts_total String.eqb String.eqb_eq (List.length l)). lia.
Qed.

Lemma value_counts_In (l : list string) (x : string) (c : nat) :
  In (x, c) (value_counts l) -> In x l /\ c = count_of String.eqb x l.
Proof.
  unfold value_counts. intro H.
  apply (Permutation_in _ (Permutation_sym (sort_descending_perm _ _))) in H.
  apply in_map_iff in H. destruct H as [y [[= <- <-] Hy]].
  apply (proj1 (unique_In String.eqb String.eqb_eq _ _)) in Hy.
  split; [exact Hy | reflexivity].
Qed.

Lemma dropna_length (l : list (option string)) :
  List.length (dropna l) = List.length (filter labelled l).
Proof.
  induction l as [|[x|] t IH]; simpl; congruence.
Qed.

Lemma dropna_In (l : list (option string)) (x : string) :
  In x (dropna l) <-> In (Some x) l.
Proof.
  induction l as [|[y|] t IH]; simpl; [tauto | | ].
  - rewrite IH. split; intros [H|H]; auto; left; congruence.
  - rewrite IH. split; [auto | intros [H|H]; [discriminate | auto]].
Qed.

Lemma filter_length_all (A : Type) (p : A -> bool) (l : list A) :
  List.length (filter p l) = List.length l <-> forall x, In x l -> p x = true.
Proof.
  split.
  - intro H. apply forallb_forall. apply filter_length_forallb. exact H.
  - intro H. rewrite forallb_filter_id; [reflexivity|].
    apply forallb_forall. exact H.
Qed.

Lemma gender_of_None (m : Z) : gender_of m = None <-> m <> 1 /\ m <> 0.
Proof.
  unfold gender_of.
  destruct (Z.eqb_spec m 1); [split; [discriminate | tauto]|].
  destruct (Z.eqb_spec m 0); [split; [discriminate | tauto]|].
  tauto.
Qed.

(** C10. A row whose [Male] is neither 1 nor 0 gets no [Gender] when the
    table is loaded.  In every filtered view such rows count towards Total
    Tickets but not towards the "Tickets by Gender" series, whose only
    categories are "Male" and "Female": the counts of the series add up to
    the number of rows with [Male] 0 or 1, hence to at most Total Tickets,
    and to exactly Total Tickets when and only when every row of the view
    has [Male] 0 or 1. *)
Theorem C10_gender_counts (csv : list CsvRow) (w : Widgets) :
  let df := load_data csv in
  let view := df_selection df w in
  let charted := list_sum (map snd (gender_counts view)) in
  (forall r, In r df -> (Gender r = None <-> Male r <> 1 /\ Male r <> 0))
  /\ (forall g c, In (g, c) (gender_counts view) -> g = "Male" \/ g = "Female")
  /\ charted = List.length (filter (fun r => Z.eqb (Male r) 1 || Z.eqb (Male r) 0) view)
  /\ (charted <= total_tickets view)%nat
  /\ (charted = total_tickets view <-> forall r, In r view -> Male r = 0 \/ Male r = 1).
Proof.
  intros df view charted.
  assert (Hg : forall r, In r view -> Gender r = gender_of (Male r)).
  { intros r Hr. apply df_selection_incl in Hr. apply (load_data_row csv r Hr). }
  assert (Hch : charted
                = List.length (filter (fun r => Z.eqb (Male r) 1 || Z.eqb (Male r) 0) view)).
  { unfold charted, gender_counts.
    rewrite value_counts_total, dropna_length.
    clearbody view. clear charted.
    induction view as [|r t IH]; [reflexivity|].
    assert (Ht : forall r, In r t -> Gender r = gender_of (Male r))
      by (intros; apply Hg; right; assumption).
    simpl. rewrite (Hg r (or_introl eq_refl)). unfold gender_of at 1.
    destruct (Z.eqb (Male r) 1); simpl; [rewrite (IH Ht); reflexivity|].
    destruct (Z.eqb (Male r) 0); simpl; rewrite (IH Ht); reflexivity. }
  split; [|split; [|split; [|split]]].
  - intros r Hr. destruct (load_data_row csv r Hr) as [_ ->]. apply gender_of_None.
  - intros g c Hin. unfold gender_counts in Hin.
    apply value_counts_In in Hin. destruct Hin as [Hin _].
    apply dropna_In in Hin. apply in_map_iff in Hin.
    destruct Hin as [r [Hr Hin]]. rewrite (Hg r Hin) in Hr.
    unfold gender_of in Hr.
    destruct (Z.eqb (Male r) 1); [left; congruence|].
    destruct (Z.eqb (Male r) 0); [right; congruence | discriminate].
  - exact Hch.
  - rewrite Hch. apply filter_length_le.
  - rewrite Hch. unfold total_tickets. rewrite filter_length_all.
    split; intros H r Hr; specialize (H r Hr).
    + apply orb_true_iff in H. rewrite !Z.eqb_eq in H. tauto.
    + apply orb_true_iff. rewrite !Z.eqb_eq. tauto.
Qed.

(** ** Runs of the script *)

Lemma printed_bind (A B : Type) (m : App A) (k : A -> App B) :
  printed (bind m k)
  = (printed m ++ match ending m with
                  | Continue a => printed (k a)
                  | _ => []
                  end)%list.
Proof.
  destruct m as [out [a| |e]]; unfold printed, ending, bind; simpl.
  - destruct (k a). reflexivity.
  - symmetry. apply app_nil_r.
  - symmetry. apply app_nil_r.
Qed.

Lemma ending_bind (A B : Type) (m : App A) (k : A -> App B) :
  ending (bind m k)
  = match ending m with
    | Continue a => ending (k a)
    | Stopped => Stopped
    | Raised e => Raised e
    end.
Proof.
  destruct m as [out [a| |e]]; unfold ending, bind; simpl; try reflexivity.
  destruct (k a). reflexivity.
Qed.

Lemma key_metrics_run (view : DataFrame) :
  key_metrics view
  = ([ subheader "📊 Key Metrics";
       metric "Total Tickets" (format_int_commas (Z.of_nat (total_tickets view)));
       metric "Average Price" ("$" ++ format_float true 2 (avg_price view));
       metric "Cancellation Rate" (format_float false 1 (cancellation_rate view) ++ "%");
       metric "Average Discount" ("$" ++ format_float true 2 (avg_discount view));
       markdown "---" ], Continue tt).
Proof. reflexivity. Qed.



(** ** Minimum and maximum of a column *)

Lemma fold_Qmin_spec (t : list Q) : forall x,
  In (fold_left Qmin t x) (x :: t)
  /\ forall y, In y (x :: t) -> (fold_left Qmin t x <= y)%Q.
Proof.
  induction t as [|a t IH]; intro x; simpl.
  - split; [auto|]. intros y [<-|[]]. apply Qle_refl.
  - destruct (IH (Qmin x a)) as [Hin Hle]. split.
    + destruct Hin as [Hin|Hin]; [|auto].
      rewrite <- Hin. unfold Qmin, GenericMinMax.gmin.
      destruct (x ?= a)%Q; auto.
    + intros y Hy.
      assert (Hm : (fold_left Qmin t (Qmin x a) <= Qmin x a)%Q) by (apply Hle; left; reflexivity).
      destruct Hy as [<-|[<-|Hy]].
      * eapply Qle_trans; [exact Hm | apply Q.le_min_l].
      * eapply Qle_trans; [exact Hm | apply Q.le_min_r].
      * apply Hle. right. exact Hy.
Qed.

Lemma fold_Qmax_spec (t : list Q) : forall x,
  In (fold_left Qmax t x) (x :: t)
  /\ forall y, In y (x :: t) -> (y <= fold_left Qmax t x)%Q.
Proof.
  induction t as [|a t IH]; intro x; simpl.
  - split; [auto|]. intros y [<-|[]]. apply Qle_refl.
  - destruct (IH (Qmax x a)) as [Hin Hle]. split.
    + destruct Hin as [Hin|Hin]; [|auto].
      rewrite <- Hin. unfold Qmax, GenericMinMax.gmax.
      destruct (x ?= a)%Q; auto.
    + intros y Hy.
      assert (Hm : (Qmax x a <= fold_left Qmax t (Qmax x a))%Q) by (apply Hle; left; reflexivity).
      destruct Hy as [<-|[<-|Hy]].
      * eapply Qle_trans; [apply Q.le_max_l | exact Hm].
      * eapply Qle_trans; [apply Q.le_max_r | exact Hm].
      * apply Hle. right. exact Hy.
Qed.

Lemma series_min_spec (l : list Q) :
  l <> [] ->
  exists mn, series_min l = Some mn /\ In mn l /\ forall y, In y l -> (mn <= y)%Q.
Proof.
  destruct l as [|x t]; [congruence|]. intros _.
  exists (fold_left Qmin t x). split; [reflexivity|]. apply fold_Qmin_spec.
Qed.

Lemma series_max_spec (l : list Q) :
  l <> [] ->
  exists mx, series_max l = Some mx /\ In mx l /\ forall y, In y l -> (y <= mx)%Q.
Proof.
  destruct l as [|x t]; [congruence|]. intros _.
  exists (fold_left Qmax t x). split; [reflexivity|]. apply fold_Qmax_spec.
Qed.

Lemma py_int_whole (q : Q) (z : Z) : (q == inject_Z z)%Q -> py_int q = z.
Proof.
  destruct q as [n d]. unfold Qeq, py_int, inject_Z. simpl.
  intro H. rewrite Z.mul_1_r in H. subst n.
  apply Z.quot_mul. discriminate.
Qed.

Lemma py_int_inject (z : Z) : py_int (inject_Z z) = z.
Proof. apply py_int_whole. reflexivity. Qed.

Lemma sidebar_run (df : DataFrame) (w : Widgets) (mn mx : Q) :
  series_min (map Price df) = Some mn ->
  series_max (map Price df) = Some mx ->
  sidebar df w
  = ([ sidebar_header "Filter Your Data";
       sidebar_multiselect "Select Vehicle Type"
         (map CStr (unique String.eqb (map Vehicle df)))
         (map CStr (unique String.eqb (map Vehicle df)));
       sidebar_multiselect "Select Trip Reason"
         (map CStr (unique String.eqb (map TripReason df)))
         (map CStr (unique String.eqb (map TripReason df)));
       sidebar_multiselect "Select Trip Type"
         (map CInt (unique Z.eqb (map Domestic df)))
         (map CInt (unique Z.eqb (map Domestic df)));
       sidebar_multiselect "Select Cancel Status"
         (map CInt (unique Z.eqb (map Cancel df)))
         (map CInt (unique Z.eqb (map Cancel df)));
       sidebar_slider "Select Price Range" (py_int mn) (py_int mx) (py_int mn, py_int mx);
       sidebar_multiselect "Select Gender"
         (map cell_of_label (unique label_eqb (map Gender df)))
         (map cell_of_label (unique label_eqb (map Gender df))) ], Continue w).
Proof.
  intros Hmn Hmx. unfold sidebar, price_bounds. rewrite Hmn, Hmx.
  destruct w. reflexivity.
Qed.

Lemma sidebar_raises (w : Widgets) :
  ending (sidebar [] w) = Raised "ValueError: cannot convert float NaN to integer".
Proof. reflexivity. Qed.

(** The top of the page: what is printed before the selection is looked at. *)
Lemma page_top (df : DataFrame) (w : Widgets) :
  df <> [] ->
  exists (mn mx : Q) (chrome : list Element),
    series_min (map Price df) = Some mn
    /\ series_max (map Price df) = Some mx
    /\ forallb is_page_chrome chrome = true
    /\ In (sidebar_slider "Select Price Range" (py_int mn) (py_int mx) (py_int mn, py_int mx))
          chrome
    /\ header_and_sidebar df w = (chrome, Continue w).
Proof.
  intro Hne.
  assert (Hp : map Price df <> []) by (destruct df; [congruence | discriminate]).
  destruct (series_min_spec _ Hp) as [mn [Hmn _]].
  destruct (series_max_spec _ Hp) as [mx [Hmx _]].
  exists mn, mx. eexists. split; [exact Hmn|]. split; [exact Hmx|].
  split; [|split]; cycle 2.
  - unfold header_and_sidebar. rewrite (sidebar_run df w mn mx Hmn Hmx). reflexivity.
  - reflexivity.
  - simpl. tauto.
Qed.







(** ** The default price range *)

Lemma default_widgets_Some (df : DataFrame) (mn mx : Q) :
  series_min (map Price df) = Some mn ->
  series_max (map Price df) = Some mx ->
  default_widgets df
  = Some {| w_vehicle_types := unique String.eqb (map Vehicle df);
            w_trip_reasons := unique String.eqb (map TripReason df);
            w_domestic_filter := unique Z.eqb (map Domestic df);
            w_cancel_filter := unique Z.eqb (map Cancel df);
            w_price_range := (py_int mn, py_int mx);
            w_gender_filter := unique label_eqb (map Gender df);
            w_price_bins := 50 |}.
Proof. intros Hmn Hmx. unfold default_widgets. rewrite Hmn, Hmx. reflexivity. Qed.

(** On a table that is not empty, the price slider runs from
    [int(min(Price))] to [int(max(Price))] over the whole loaded table and
    starts at that range.  When every price is a whole number these are
    the extreme prices themselves, and with every widget at its default
    the filtered view is the whole table. *)
Theorem default_price_range_whole_prices (extra : nat) (df : DataFrame) :
  df <> [] ->
  exists (mn mx : Q) (w : Widgets),
    series_min (map Price df) = Some mn
    /\ series_max (map Price df) = Some mx
    /\ (forall r, In r df -> (mn <= Price r <= mx)%Q)
    /\ default_widgets df = Some w
    /\ w_price_range w = (py_int mn, py_int mx)
    /\ In (sidebar_slider "Select Price Range" (py_int mn) (py_int mx) (py_int mn, py_int mx))
          (printed (streamlit_app extra df w))
    /\ ((forall r, In r df -> exists z, (Price r == inject_Z z)%Q) ->
        (inject_Z (py_int mn) == mn)%Q
        /\ (inject_Z (py_int mx) == mx)%Q
        /\ df_selection df w = df).
Proof.
  intro Hne.
  assert (Hp : map Price df <> []) by (destruct df; [congruence | discriminate]).
  destruct (series_min_spec _ Hp) as [mn [Hmn [Hmn_in Hmn_le]]].
  destruct (series_max_spec _ Hp) as [mx [Hmx [Hmx_in Hmx_le]]].
  exists mn, mx. eexists.
  split; [exact Hmn|]. split; [exact Hmx|].
  split; [|split; [apply (default_widgets_Some df mn mx Hmn Hmx)|]].
  { intros r Hr. split; [apply Hmn_le | apply Hmx_le]; apply in_map; exact Hr. }
  split; [reflexivity|]. split.
  - match goal with |- In _ (printed (streamlit_app _ _ ?w)) => set (w0 := w) end.
    destruct (page_top df w0 Hne) as (mn' & mx' & chrome & Hmn' & Hmx' & _ & Hin & Htop).
    rewrite Hmn in Hmn'. rewrite Hmx in Hmx'.
    injection Hmn' as <-. injection Hmx' as <-.
    unfold streamlit_app. rewrite Htop.
    rewrite printed_bind. apply in_or_app. left. exact Hin.
  - intro Hwhole.
    assert (Hzmn : (inject_Z (py_int mn) == mn)%Q).
    { apply in_map_iff in Hmn_in. destruct Hmn_in as [r [<- Hr]].
      destruct (Hwhole r Hr) as [z Hz].
      rewrite (py_int_whole _ _ Hz). symmetry. exact Hz. }
    assert (Hzmx : (inject_Z (py_int mx) == mx)%Q).
    { apply in_map_iff in Hmx_in. destruct Hmx_in as [r [<- Hr]].
      destruct (Hwhole r Hr) as [z Hz].
      rewrite (py_int_whole _ _ Hz). symmetry. exact Hz. }
    split; [exact Hzmn|]. split; [exact Hzmx|].
    rewrite df_selection_steps.
    unfold apply_filters, dimension_filters.
    cbn [fold_left w_vehicle_types w_trip_reasons w_domestic_filter w_cancel_filter
         w_gender_filter w_price_range].
    keep_all.
    apply filter_all. intros r Hr.
    apply in_price_range_iff. cbn [fst snd].
    rewrite Hzmn, Hzmx.
    split; [apply Hmn_le | apply Hmx_le]; apply in_map; exact Hr.
Qed.

Lemma default_price_range_whole_prices_witness :
  exists w, default_widgets one_ticket = Some w /\ df_selection one_ticket w = one_ticket.
Proof.
  assert (Hne : one_ticket <> []) by discriminate.
  destruct (default_price_range_whole_prices 0 one_ticket Hne)
    as (mn & mx & w & _ & _ & _ & Hw & _ & _ & Hall).
  exists w. split; [exact Hw|].
  apply Hall. intros r [<-|[]]. exists 1000000. reflexivity.
Defined.

(** With fractional prices the default view is not the whole table. *)
Lemma default_view_not_whole_table :
  ~ (forall (df : DataFrame) (w : Widgets),
       default_widgets df = Some w -> df_selection df w = df).
Proof.
  intro H.
  pose proof (H fractional_prices _ eq_refl) as Hsel.
  vm_compute in Hsel. discriminate Hsel.
Qed.

(** C3. The script at the failing input: two tickets priced 10.5 and 20.5.
    [int] truncates the bounds, so the slider runs from 10 to 20 and starts
    at (10, 20) although the highest price is 20.5; with every widget at
    its default the view holds the 10.5 ticket only, and no position of
    the slider can bring the 20.5 ticket back. *)
Theorem C3_default_range_drops_top_price :
  exists w,
    default_widgets fractional_prices = Some w
    /\ series_min (map Price fractional_prices) = Some (21 # 2)
    /\ series_max (map Price fractional_prices) = Some (41 # 2)
    /\ w_price_range w = (10, 20)
    /\ In (sidebar_slider "Select Price Range" 10 20 (10, 20))
          (printed (streamlit_app 0 fractional_prices w))
    /\ df_selection fractional_prices w = [derive (sample_csv_row (21 # 2))]
    /\ df_selection fractional_prices w <> fractional_prices
    /\ (forall lo hi, 10 <= lo -> hi <= 20 ->
          ~ In (derive (sample_csv_row (41 # 2)))
               (df_selection fractional_prices
                  (mkWidgets (w_vehicle_types w) (w_trip_reasons w) (w_domestic_filter w)
                     (w_cancel_filter w) (lo, hi) (w_gender_filter w) (w_price_bins w)))).
Proof.
  eexists. split; [reflexivity|].
  split; [reflexivity|]. split; [reflexivity|]. split; [reflexivity|].
  split; [vm_compute; tauto|]. split; [vm_compute; reflexivity|].
  split; [vm_compute; discriminate|].
  intros lo hi Hlo Hhi Hin.
  rewrite df_selection_conj in Hin. apply filter_In in Hin. destruct Hin as [_ Hin].
  unfold dimension_filters in Hin. cbn [forallb] in Hin.
  rewrite !andb_true_iff in Hin. destruct Hin as (_ & _ & _ & _ & _ & Hp & _).
  apply in_price_range_iff in Hp. cbn [fst snd w_price_range] in Hp.
  destruct Hp as [_ Hp]. cbn [Price derive sample_csv_row csv_Price] in Hp.
  rewrite Zle_Qle in Hhi.
  assert (H20 : (41 # 2 <= inject_Z 20)%Q) by (eapply Qle_trans; eassumption).
  vm_compute in H20. apply H20. reflexivity.
Qed.


(** ** Rounding and the cancellation rate *)

Lemma round_half_even_close (q : Q) :
  (Qabs (inject_Z (round_half_even q) - q) <= 1 # 2)%Q.
Proof.
  unfold round_half_even.
  pose proof (Qfloor_le q) as Hlo.
  pose proof (Qlt_floor q) as Hhi.
  rewrite inject_Z_plus in Hhi.
  change (inject_Z 1) with 1%Q in Hhi.
  apply Qabs_Qle_condition.
  destruct (Qcompare (q - inject_Z (Qfloor q)) (1 # 2)) eqn:E.
  - apply Qeq_alt in E.
    destruct (Z.even (Qfloor q)); [|rewrite inject_Z_plus; change (inject_Z 1) with 1%Q];
      revert Hlo Hhi E; generalize (inject_Z (Qfloor q)); intros; split; lra.
  - apply Qlt_alt in E.
    revert Hlo Hhi E; generalize (inject_Z (Qfloor q)); intros; split; lra.
  - apply Qgt_alt in E. rewrite inject_Z_plus. change (inject_Z 1) with 1%Q.
    revert Hlo Hhi E; generalize (inject_Z (Qfloor q)); intros; split; lra.
Qed.

Lemma one_decimal_close (q : Q) :
  (Qabs (inject_Z (round_half_even (q * 10)) / 10 - q) <= 1 # 20)%Q.
Proof.
  pose proof (round_half_even_close (q * 10)) as H.
  apply Qabs_Qle_condition in H. apply Qabs_Qle_condition.
  revert H. generalize (inject_Z (round_half_even (q * 10))).
  intros t [H1 H2]. unfold Qdiv. change (/ 10)%Q with (1 # 10)%Q. split; lra.
Qed.

(** ** Binary floating point *)

Lemma pow2_pos (e : Z) : (0 < 2 ^ e)%Q.
Proof. apply Qpower_0_lt. reflexivity. Qed.

Lemma pow2_succ (e : Z) : (2 ^ (e + 1) == 2 * 2 ^ e)%Q.
Proof. rewrite Qpower_plus by discriminate. change (2 ^ 1)%Q with 2%Q. ring. Qed.

Lemma pow2_inject (n : Z) : 0 <= n -> (inject_Z (2 ^ n) == 2 ^ n)%Q.
Proof. intro H. rewrite Zpower_Qpower by exact H. reflexivity. Qed.

(** A power of two as a quotient of two integers. *)
Lemma pow2_split (e : Z) :
  (2 ^ e * inject_Z (2 ^ Z.max 0 (- e)) == inject_Z (2 ^ Z.max 0 e))%Q.
Proof.
  destruct (Z.le_gt_cases 0 e) as [H|H].
  - rewrite (Z.max_r 0 e), (Z.max_l 0 (- e)) by lia.
    rewrite (pow2_inject e) by exact H. change (inject_Z (2 ^ 0)) with 1%Q. ring.
  - rewrite (Z.max_l 0 e), (Z.max_r 0 (- e)) by lia.
    rewrite (pow2_inject (- e)) by lia. change (inject_Z (2 ^ 0)) with 1%Q.
    rewrite <- Qpower_plus by discriminate.
    replace (e + - e) with 0 by lia. reflexivity.
Qed.

Lemma log2_bounds (a : Z) :
  0 < a -> (2 ^ Z.log2 a <= inject_Z a)%Q /\ (inject_Z a < 2 * 2 ^ Z.log2 a)%Q.
Proof.
  intro Ha. destruct (Z.log2_spec a Ha) as [H1 H2].
  pose proof (Z.log2_nonneg a) as H0.
  rewrite <- pow2_succ, <- !pow2_inject by lia.
  rewrite <- Zle_Qle, <- Zlt_Qlt. split; [exact H1 | exact H2].
Qed.

(** [binade q] is the exponent of the binade of [q]. *)
Lemma binade_spec (q : Q) :
  ~ (q == 0)%Q -> (2 ^ binade q <= Qabs q)%Q /\ (Qabs q < 2 ^ (binade q + 1))%Q.
Proof.
  intro Hq.
  set (v := Qabs q).
  set (a := Z.abs (Qnum q)). set (d := Zpos (Qden q)).
  assert (Ha : 0 < a).
  { unfold a. destruct q as [n dd]. cbn [Qnum].
    assert (n <> 0) by (intro E; apply Hq; subst n; reflexivity). lia. }
  assert (Hd : 0 < d) by reflexivity.
  assert (Hv : (v * inject_Z d == inject_Z a)%Q).
  { unfold v, a, d. destruct q as [n dd]. unfold Qabs, Qeq, Qmult, inject_Z. simpl. lia. }
  destruct (log2_bounds a Ha) as [HA1 HA2].
  destruct (log2_bounds d Hd) as [HD1 HD2].
  set (k := Z.log2 a - Z.log2 d).
  assert (Hk : (2 ^ k * 2 ^ Z.log2 d == 2 ^ Z.log2 a)%Q).
  { rewrite <- Qpower_plus by discriminate. unfold k.
    replace (Z.log2 a - Z.log2 d + Z.log2 d) with (Z.log2 a) by lia. reflexivity. }
  pose proof (pow2_split k) as Hsplit.
  pose proof (pow2_pos k) as Ht.
  pose proof (pow2_pos (Z.log2 a)) as HPA.
  pose proof (pow2_pos (Z.log2 d)) as HPD.
  assert (HM : (0 < inject_Z (2 ^ Z.max 0 (- k)))%Q).
  { rewrite pow2_inject by lia. apply pow2_pos. }
  assert (HD0 : (0 < inject_Z d)%Q) by (rewrite Zlt_Qlt in Hd; exact Hd).
  unfold binade. fold a. fold d. fold k.
  destruct (Z.leb_spec (d * 2 ^ Z.max 0 k) (a * 2 ^ Z.max 0 (- k))) as [Htest|Htest].
  - rewrite Zle_Qle, !inject_Z_mult, <- Hsplit in Htest.
    rewrite pow2_succ.
    revert Hv HA1 HA2 HD1 HD2 Hk Ht HPA HPD HM HD0 Htest.
    generalize (2 ^ k)%Q (2 ^ Z.log2 a)%Q (2 ^ Z.log2 d)%Q (inject_Z a) (inject_Z d)
               (inject_Z (2 ^ Z.max 0 (- k))) v.
    intros t PA PD A D M v' Hv HA1 HA2 HD1 HD2 Hk Ht HPA HPD HM HD0 Htest.
    assert (H1 : (D * t <= A)%Q) by nra.
    split; nra.
  - rewrite Zlt_Qlt, !inject_Z_mult, <- Hsplit in Htest.
    replace (k - 1 + 1) with k by lia.
    assert (Hpred : (2 * 2 ^ (k - 1) == 2 ^ k)%Q).
    { rewrite <- pow2_succ. replace (k - 1 + 1) with k by lia. reflexivity. }
    pose proof (pow2_pos (k - 1)) as Ht'.
    revert Hv HA1 HA2 HD1 HD2 Hk Ht HPA HPD HM HD0 Htest Hpred Ht'.
    generalize (2 ^ (k - 1))%Q (2 ^ k)%Q (2 ^ Z.log2 a)%Q (2 ^ Z.log2 d)%Q (inject_Z a)
               (inject_Z d) (inject_Z (2 ^ Z.max 0 (- k))) v.
    intros t' t PA PD A D M v' Hv HA1 HA2 HD1 HD2 Hk Ht HPA HPD HM HD0 Htest Hpred Ht'.
    assert (H1 : (A < D * t)%Q) by nra.
    split; nra.
Qed.

Lemma fl_error (q : Q) : (Qabs (fl q - q) <= Qabs q * half_ulp)%Q.
Proof.
  unfold fl. destruct (Qeq_bool q 0) eqn:E.
  - apply Qeq_bool_iff in E. rewrite E. discriminate.
  - apply Qeq_bool_neq in E. rewrite Qred_correct.
    destruct (binade_spec q E) as [Hlo _].
    set (e := binade q) in *.
    assert (Hulp : (2 ^ (e - 52) == 2 ^ e * (1 # 4503599627370496))%Q).
    { unfold Zminus. rewrite Qpower_plus by discriminate. reflexivity. }
    pose proof (pow2_pos e) as Ht.
    pose proof (pow2_pos (e - 52)) as Hu.
    pose proof (round_half_even_close (q / 2 ^ (e - 52))) as Hr.
    apply Qabs_Qle_condition in Hr.
    assert (Hx : (q / 2 ^ (e - 52) * 2 ^ (e - 52) == q)%Q).
    { field. intro H0. rewrite H0 in Hu. discriminate Hu. }
    apply Qabs_Qle_condition. unfold half_ulp.
    revert Hlo Hulp Ht Hu Hr Hx.
    generalize (inject_Z (round_half_even (q / 2 ^ (e - 52)))) (q / 2 ^ (e - 52))%Q
               (2 ^ (e - 52))%Q (2 ^ e)%Q (Qabs q).
    intros R x ulp t V Hlo Hulp Ht Hu [Hr1 Hr2] Hx.
    split; nra.
Qed.

Lemma Qabs_positive (q : Q) : ~ (q == 0)%Q -> (0 < Qabs q)%Q.
Proof.
  intro E. destruct (Qlt_le_dec 0 q) as [H|H].
  - rewrite Qabs_pos by lra. exact H.
  - rewrite Qabs_neg by exact H.
    apply Qle_lteq in H. destruct H as [H|H]; [lra | contradiction].
Qed.

(** Rounding changes a number by at most one part in 2^53. *)
Lemma fl_relative (q : Q) :
  exists d : Q, (Qabs d <= half_ulp)%Q /\ (fl q == q * (1 + d))%Q.
Proof.
  destruct (Qeq_dec q 0) as [E|E].
  - exists 0%Q. split; [discriminate|].
    unfold fl. rewrite (proj2 (Qeq_bool_iff q 0) E). rewrite E. reflexivity.
  - exists ((fl q - q) / q)%Q. split; [|field; exact E].
    pose proof (fl_error q) as H.
    pose proof (Qabs_positive q E) as Hq.
    unfold Qdiv. rewrite Qabs_Qmult, Qabs_Qinv.
    apply Qle_shift_div_r; [exact Hq|].
    rewrite (Qmult_comm half_ulp). exact H.
Qed.

Lemma product_bounds (lo1 hi1 lo2 hi2 x y : Q) :
  (0 <= lo1)%Q -> (0 <= lo2)%Q ->
  (lo1 <= x)%Q -> (x <= hi1)%Q -> (lo2 <= y)%Q -> (y <= hi2)%Q ->
  (lo1 * lo2 <= x * y)%Q /\ (x * y <= hi1 * hi2)%Q.
Proof.
  intros. split; apply Qmult_le_compat_nonneg; split; lra.
Qed.

Lemma four_roundings_low (u : Q) :
  (0 < u)%Q -> (u <= 1 # 100)%Q ->
  (1 - 8 * u <= (1 - u) * (1 - u) * (1 - u) * (1 - u))%Q.
Proof.
  intros H0 H1.
  assert (H2 : (1 - 2 * u <= (1 - u) * (1 - u))%Q) by nra.
  assert (H3 : (0 <= 1 - 2 * u)%Q) by lra.
  setoid_replace ((1 - u) * (1 - u) * (1 - u) * (1 - u))%Q
    with (((1 - u) * (1 - u)) * ((1 - u) * (1 - u)))%Q by ring.
  revert H2. generalize ((1 - u) * (1 - u))%Q. intros v H2.
  assert (H4 : ((1 - 2 * u) * (1 - 2 * u) <= v * v)%Q)
    by (apply Qmult_le_compat_nonneg; split; lra).
  nra.
Qed.

Lemma four_roundings_high (u : Q) :
  (0 < u)%Q -> (u <= 1 # 100)%Q ->
  ((1 + u) * (1 + 2 * u) * (1 + u) * (1 + u) <= 1 + 8 * u)%Q.
Proof.
  intros H0 H1.
  assert (Huu : (u * u <= u * (1 # 100))%Q) by nra.
  assert (H2 : ((1 + u) * (1 + 2 * u) <= 1 + 4 * u)%Q) by nra.
  assert (H3 : ((1 + u) * (1 + u) <= 1 + 3 * u)%Q) by nra.
  setoid_replace ((1 + u) * (1 + 2 * u) * (1 + u) * (1 + u))%Q
    with (((1 + u) * (1 + 2 * u)) * ((1 + u) * (1 + u)))%Q by ring.
  assert (H5 : (0 <= (1 + u) * (1 + 2 * u))%Q) by (apply Qmult_le_0_compat; lra).
  assert (H6 : (0 <= (1 + u) * (1 + u))%Q) by (apply Qmult_le_0_compat; lra).
  revert H2 H3 H5 H6.
  generalize ((1 + u) * (1 + 2 * u))%Q ((1 + u) * (1 + u))%Q. intros x y H2 H3 H5 H6.
  assert (H7 : (x * y <= (1 + 4 * u) * (1 + 3 * u))%Q)
    by (apply Qmult_le_compat_nonneg; split; lra).
  nra.
Qed.

(** Four roundings in a row: the conversions of the sum and of the length,
    the division and the multiplication. *)
Lemma four_roundings (u d1 d2 d3 d4 : Q) :
  (0 < u)%Q -> (u <= 1 # 100)%Q ->
  (Qabs d1 <= u)%Q -> (Qabs d2 <= u)%Q -> (Qabs d3 <= u)%Q -> (Qabs d4 <= u)%Q ->
  (Qabs ((1 + d1) / (1 + d2) * (1 + d3) * (1 + d4) - 1) <= 8 * u)%Q.
Proof.
  intros Hu Hu' H1 H2 H3 H4.
  apply Qabs_Qle_condition in H1, H2, H3, H4.
  destruct H1 as [H1 H1'], H2 as [H2 H2'], H3 as [H3 H3'], H4 as [H4 H4'].
  assert (Hpos : (0 < 1 + d2)%Q) by lra.
  assert (HG : (0 < / (1 + d2))%Q) by (apply Qinv_lt_0_compat; exact Hpos).
  assert (HGd : ((1 + d2) * / (1 + d2) == 1)%Q) by (apply Qmult_inv_r; lra).
  unfold Qdiv. revert HG HGd. generalize (/ (1 + d2))%Q. intros G HG HGd.
  assert (HG12 : (1 - u <= G)%Q /\ (G <= 1 + 2 * u)%Q).
  { clear H1 H1' H3 H3' H4 H4'.
    assert (Huu : (u * u <= u * (1 # 100))%Q) by nra.
    split; nra. }
  destruct HG12 as [HG1 HG2].
  assert (Hu0 : (0 <= 1 - u)%Q) by lra.
  destruct (product_bounds (1 - u) (1 + u) (1 - u) (1 + 2 * u) (1 + d1) G)
    as [Ha1 Ha2]; try lra.
  assert (Ha0 : (0 <= (1 - u) * (1 - u))%Q) by (apply Qmult_le_0_compat; exact Hu0).
  destruct (product_bounds _ _ (1 - u) (1 + u) _ (1 + d3) Ha0 Hu0 Ha1 Ha2)
    as [Hb1 Hb2]; try lra.
  assert (Hb0 : (0 <= (1 - u) * (1 - u) * (1 - u))%Q)
    by (apply Qmult_le_0_compat; assumption).
  destruct (product_bounds _ _ (1 - u) (1 + u) _ (1 + d4) Hb0 Hu0 Hb1 Hb2)
    as [Hc1 Hc2]; try lra.
  apply Qabs_Qle_condition.
  pose proof (four_roundings_low u Hu Hu') as Hlow.
  pose proof (four_roundings_high u Hu Hu') as Hhigh.
  revert Hc1 Hc2 Hlow Hhigh.
  generalize ((1 + d1) * G * (1 + d3) * (1 + d4))%Q
             ((1 - u) * (1 - u) * (1 - u) * (1 - u))%Q
             ((1 + u) * (1 + 2 * u) * (1 + u) * (1 + u))%Q.
  intros c lo hi Hc1 Hc2 Hlow Hhigh.
  split; lra.
Qed.

Lemma cancellation_rate_value (view : DataFrame) :
  view <> [] ->
  cancellation_rate view
  = Some (fl (fl (fl (inject_Z (Zsum (map Cancel view)))
                  / fl (inject_Z (Z.of_nat (List.length view)))) * 100))%Q.
Proof.
  destruct view as [|r t]; [congruence|]. reflexivity.
Qed.

(** The rate the script computes is the exact rate up to one part in 2^50. *)
Lemma cancellation_rate_accuracy (C N : Z) :
  0 < N ->
  (Qabs (fl (fl (fl (inject_Z C) / fl (inject_Z N)) * 100) - inject_Z C / inject_Z N * 100)
   <= (1 # 1125899906842624) * Qabs (inject_Z C / inject_Z N * 100))%Q.
Proof.
  intro HN.
  assert (HN0 : ~ (inject_Z N == 0)%Q).
  { intro E. rewrite Zlt_Qlt in HN. rewrite E in HN. discriminate HN. }
  destruct (fl_relative (inject_Z C)) as [d1 [Hd1 E1]].
  destruct (fl_relative (inject_Z N)) as [d2 [Hd2 E2]].
  destruct (fl_relative (fl (inject_Z C) / fl (inject_Z N))) as [d3 [Hd3 E3]].
  destruct (fl_relative (fl (fl (inject_Z C) / fl (inject_Z N)) * 100)) as [d4 [Hd4 E4]].
  rewrite E4, E3, E1, E2. clear E1 E2 E3 E4.
  assert (Hu : (0 < half_ulp)%Q) by reflexivity.
  assert (Hu' : (half_ulp <= 1 # 100)%Q) by discriminate.
  pose proof (four_roundings half_ulp d1 d2 d3 d4 Hu Hu' Hd1 Hd2 Hd3 Hd4) as H.
  assert (Hd2' : ~ (1 + d2 == 0)%Q).
  { apply Qabs_Qle_condition in Hd2. unfold half_ulp in Hd2. intro E. lra. }
  setoid_replace (inject_Z C * (1 + d1) / (inject_Z N * (1 + d2)) * (1 + d3) * 100 * (1 + d4)
                  - inject_Z C / inject_Z N * 100)%Q
    with (inject_Z C / inject_Z N * 100
          * ((1 + d1) / (1 + d2) * (1 + d3) * (1 + d4) - 1))%Q
    by (field; split; assumption).
  rewrite Qabs_Qmult, (Qmult_comm (1 # 1125899906842624)).
  apply Qmult_le_compat_nonneg.
  - split; [apply Qabs_nonneg | apply Qle_refl].
  - split; [apply Qabs_nonneg|].
    apply (Qle_trans _ _ _ H). discriminate.
Qed.

Lemma streamlit_app_stopped (extra : nat) (df : DataFrame) (w : Widgets) :
  df <> [] -> df_selection df w = [] ->
  exists chrome,
    forallb is_page_chrome chrome = true
    /\ streamlit_app extra df w = ((chrome ++ [warning no_data_warning])%list, Stopped).
Proof.
  intros Hne Hview.
  destruct (page_top df w Hne) as (mn & mx & chrome & _ & _ & Hchrome & _ & Htop).
  exists chrome. split; [exact Hchrome|].
  unfold streamlit_app. rewrite Htop. unfold bind at 1. cbv zeta.
  rewrite Hview. reflexivity.
Qed.

(** A metric is printed only when the filtered view has rows. *)
Lemma metric_needs_rows (extra : nat) (df : DataFrame) (w : Widgets) (label text : string) :
  In (metric label text) (printed (streamlit_app extra df w)) -> df_selection df w <> [].
Proof.
  intros Hin Hview.
  destruct df as [|r df'].
  - simpl in Hin. repeat (destruct Hin as [Hin|Hin]; [discriminate Hin|]). exact Hin.
  - assert (Hne : r :: df' <> []) by discriminate.
    destruct (streamlit_app_stopped extra _ w Hne Hview) as (chrome & Hchrome & Hrun).
    rewrite Hrun in Hin. unfold printed in Hin. cbn [fst] in Hin.
    apply in_app_or in Hin. destruct Hin as [Hin|[Hin|[]]]; [|discriminate Hin].
    rewrite forallb_forall in Hchrome. specialize (Hchrome _ Hin). discriminate Hchrome.
Qed.

(** C5. The cancellation metric is printed only for a filtered view that
    has rows.  On such a view of N > 0 rows with C the sum of [Cancel], N is
    not zero, so the division is defined; the rate is (C / N) * 100 as
    binary64 arithmetic computes it, which is the exact (C / N) * 100 up to
    one part in 2^50; and the metric shows it with one decimal: the number
    printed is a nearest tenth of the rate, followed by a percent sign.
    With N = 200 and C = 40 the metric reads "20.0%".  Where the exact rate
    lies half way between two tenths the last bits of the binary64 rate
    decide: with N = 80 and C = 23 (28.75 exactly) the metric reads
    "28.7%". *)
Theorem C5_cancellation_rate (extra : nat) (df : DataFrame) (w : Widgets) :
  let view := df_selection df w in
  let N := Z.of_nat (List.length view) in
  let C := Zsum (map Cancel view) in
  (forall text, In (metric "Cancellation Rate" text) (printed (streamlit_app extra df w)) ->
                view <> [])
  /\ (view <> [] ->
      N <> 0
      /\ exists rate : Q,
           cancellation_rate view = Some rate
           /\ rate = fl (fl (fl (inject_Z C) / fl (inject_Z N)) * 100)
           /\ (Qabs (rate - inject_Z C / inject_Z N * 100)
               <= (1 # 1125899906842624) * Qabs (inject_Z C / inject_Z N * 100))%Q
           /\ In (metric "Cancellation Rate" (format_fixed false 1 rate ++ "%"))
                 (printed (key_metrics view))
           /\ (Qabs (inject_Z (round_half_even (rate * 10)) / 10 - rate) <= 1 # 20)%Q
           /\ (N = 200 -> C = 40 -> format_fixed false 1 rate ++ "%" = "20.0%")
           /\ (N = 80 -> C = 23 -> format_fixed false 1 rate ++ "%" = "28.7%")).
Proof.
  intros view N C.
  split; [intros text; apply metric_needs_rows|].
  intro Hne.
  assert (HN : 0 < N) by (unfold N; destruct view; [congruence | simpl; lia]).
  split; [lia|].
  exists (fl (fl (fl (inject_Z C) / fl (inject_Z N)) * 100)).
  split; [apply cancellation_rate_value; exact Hne|].
  split; [reflexivity|].
  split; [apply cancellation_rate_accuracy; exact HN|].
  split.
  { rewrite key_metrics_run. unfold printed. cbn [fst].
    rewrite (cancellation_rate_value view Hne). fold N. fold C.
    cbn [format_float In]. tauto. }
  split; [apply one_decimal_close|].
  split; intros -> ->; vm_compute; reflexivity.
Qed.

Lemma C5_cancellation_rate_witness :
  In (metric "Cancellation Rate" "20.0%")
     (printed (key_metrics
                 (df_selection (view_with_cancellations 200 40)
                    (mkWidgets [] [] [] [] (0, 1000000) [] 50)))).
Proof.
  pose proof (C5_cancellation_rate 0 (view_with_cancellations 200 40)
                (mkWidgets [] [] [] [] (0, 1000000) [] 50)) as H.
  cbv zeta in H. destruct H as [_ H].
  assert (Hne : df_selection (view_with_cancellations 200 40)
                  (mkWidgets [] [] [] [] (0, 1000000) [] 50) <> [])
    by (vm_compute; discriminate).
  destruct (H Hne) as (_ & rate & _ & _ & _ & Hin & _ & Hex & _).
  rewrite <- (Hex eq_refl eq_refl). exact Hin.
Defined.

(** The script's rate in two more cases: 23 cancellations in 80 tickets
    (28.75 exactly) and 1 in 2000 (0.05 exactly). *)
Example cancellation_rate_ties :
  option_map (format_fixed false 1) (cancellation_rate (view_with_cancellations 80 23))
  = Some "28.7"
  /\ option_map (format_fixed false 1) (cancellation_rate (view_with_cancellations 2000 1))
     = Some "0.1".
Proof. split; vm_compute; reflexivity. Qed.

(** ** The order of strings and of routes *)

Lemma ascii_compare_refl (a : ascii) : Ascii.compare a a = Eq.
Proof. apply N.compare_refl. Qed.

Lemma ascii_compare_lt_trans (a b c : ascii) :
  Ascii.compare a b = Lt -> Ascii.compare b c = Lt -> Ascii.compare a c = Lt.
Proof.
  unfold Ascii.compare. rewrite !N.compare_lt_iff. apply N.lt_trans.
Qed.

Lemma string_compare_refl (s : string) : String.compare s s = Eq.
Proof.
  induction s as [|a s IH]; simpl; [reflexivity|].
  rewrite ascii_compare_refl. exact IH.
Qed.

Lemma string_compare_eq (s t : string) : String.compare s t = Eq <-> s = t.
Proof.
  split; [apply String.compare_eq_iff|]. intros ->. apply string_compare_refl.
Qed.

Lemma string_lt_trans (s : string) : forall t u,
  String.compare s t = Lt -> String.compare t u = Lt -> String.compare s u = Lt.
Proof.
  induction s as [|a s IH]; intros [|b t] [|c u]; simpl; try congruence.
  destruct (Ascii.compare a b) eqn:Eab; try discriminate;
  destruct (Ascii.compare b c) eqn:Ebc; try discriminate; intros H1 H2.
  - apply Ascii.compare_eq_iff in Eab, Ebc. subst.
    rewrite ascii_compare_refl. eapply IH; eassumption.
  - apply Ascii.compare_eq_iff in Eab. subst. rewrite Ebc. reflexivity.
  - apply Ascii.compare_eq_iff in Ebc. subst. rewrite Eab. reflexivity.
  - rewrite (ascii_compare_lt_trans a b c Eab Ebc). reflexivity.
Qed.

Lemma string_compare_gt (s t : string) :
  String.compare s t = Gt <-> String.compare t s = Lt.
Proof.
  rewrite (String.compare_antisym s t).
  destruct (String.compare t s); simpl; split; congruence.
Qed.

Lemma route_leb_iff (a b : string * string) :
  route_leb a b = true <-> route_lt a b \/ a = b.
Proof.
  destruct a as [a1 a2], b as [b1 b2].
  unfold route_leb, route_lt, String.ltb, String.leb. simpl.
  destruct (String.compare a1 b1) eqn:E1.
  - apply string_compare_eq in E1. subst b1.
    rewrite (proj2 (String.eqb_eq a1 a1) eq_refl).
    destruct (String.compare a2 b2) eqn:E2.
    + apply string_compare_eq in E2. subst. intuition.
    + intuition.
    + split; [discriminate|].
      intros [[H|[_ H]]|H]; try discriminate.
      injection H as <-. rewrite string_compare_refl in E2. discriminate.
  - intuition.
  - destruct (String.eqb_spec a1 b1) as [->|Hne].
    + rewrite string_compare_refl in E1. discriminate.
    + split; [discriminate|].
      intros [[H|[H _]]|H]; try discriminate; congruence.
Qed.

Lemma route_lt_irrefl (a : string * string) : ~ route_lt a a.
Proof.
  unfold route_lt. rewrite !string_compare_refl. intros [H|[_ H]]; discriminate.
Qed.

Lemma route_lt_trans (a b c : string * string) :
  route_lt a b -> route_lt b c -> route_lt a c.
Proof.
  unfold route_lt. intros [H1|[E1 H1]] [H2|[E2 H2]].
  - left. eapply string_lt_trans; eassumption.
  - left. rewrite <- E2. exact H1.
  - left. rewrite E1. exact H2.
  - right. split; [congruence|]. eapply string_lt_trans; eassumption.
Qed.

Lemma route_lt_total (a b : string * string) : route_lt a b \/ a = b \/ route_lt b a.
Proof.
  destruct a as [a1 a2], b as [b1 b2]. unfold route_lt. simpl.
  destruct (String.compare a1 b1) eqn:E1.
  - apply string_compare_eq in E1. subst b1.
    destruct (String.compare a2 b2) eqn:E2.
    + apply string_compare_eq in E2. subst. auto.
    + auto.
    + apply string_compare_gt in E2. auto.
  - auto.
  - apply string_compare_gt in E1. auto.
Qed.

Lemma route_leb_total (a b : string * string) :
  route_leb a b = true \/ route_leb b a = true.
Proof.
  rewrite !route_leb_iff. destruct (route_lt_total a b) as [H|[H|H]]; auto.
Qed.

Lemma route_leb_trans (a b c : string * string) :
  route_leb a b = true -> route_leb b c = true -> route_leb a c = true.
Proof.
  rewrite !route_leb_iff. intros [H1 | ->] [H2 | ->]; auto.
  left. eapply route_lt_trans; eassumption.
Qed.

(** ** Sorted lists *)

Section SortedFacts.
Context {A : Type}.

Lemma StronglySorted_app (R : A -> A -> Prop) (l1 l2 : list A) :
  StronglySorted R l1 -> StronglySorted R l2 ->
  (forall a b, In a l1 -> In b l2 -> R a b) ->
  StronglySorted R (l1 ++ l2).
Proof.
  induction l1 as [|x t IH]; simpl; intros H1 H2 H12; [exact H2|].
  apply StronglySorted_inv in H1. destruct H1 as [Ht Hx].
  constructor.
  - apply IH; auto.
  - apply Forall_app. split; [exact Hx|].
    apply Forall_forall. intros b Hb. apply H12; auto.
Qed.

Lemma StronglySorted_rev (R : A -> A -> Prop) (l : list A) :
  StronglySorted R l -> StronglySorted (fun a b => R b a) (rev l).
Proof.
  induction 1 as [|x t Ht IH Hx]; simpl; [constructor|].
  apply StronglySorted_app; [exact IH | repeat constructor |].
  intros a b Ha [<-|[]]. apply in_rev in Ha.
  rewrite Forall_forall in Hx. apply Hx. exact Ha.
Qed.


Lemma StronglySorted_weaken (R S : A -> A -> Prop) (l : list A) :
  (forall a b, In a l -> In b l -> R a b -> S a b) ->
  StronglySorted R l -> StronglySorted S l.
Proof.
  intros HRS H. induction H as [|x t Ht IH Hx]; constructor.
  - apply IH. intros a b Ha Hb. apply HRS; right; assumption.
  - rewrite Forall_forall in *. intros y Hy.
    apply HRS; [left; reflexivity | right; exact Hy | apply Hx; exact Hy].
Qed.

Lemma StronglySorted_NoDup (R : A -> A -> Prop) (l : list A) :
  StronglySorted R l -> NoDup l -> StronglySorted (fun a b => R a b /\ a <> b) l.
Proof.
  induction 1 as [|x t Ht IH Hx]; intro Hnd; constructor.
  - apply IH. inversion Hnd; assumption.
  - inversion Hnd as [|? ? Hnot Hnd']; subst.
    rewrite Forall_forall in *. intros y Hy. split; [apply Hx; exact Hy|].
    intros ->. contradiction.
Qed.

Lemma StronglySorted_map (B : Type) (f : A -> B) (R : B -> B -> Prop) (l : list A) :
  StronglySorted (fun a b => R (f a) (f b)) l -> StronglySorted R (map f l).
Proof.
  induction 1 as [|x t Ht IH Hx]; simpl; constructor; [exact IH|].
  rewrite Forall_forall in *. intros y Hy.
  apply in_map_iff in Hy. destruct Hy as [z [<- Hz]]. apply Hx. exact Hz.
Qed.

Context (leb : A -> A -> bool).
Hypothesis leb_total : forall a b, leb a b = true \/ leb b a = true.
Hypothesis leb_trans : forall a b c, leb a b = true -> leb b c = true -> leb a c = true.

(** The order a stable sort produces from an input that was sorted by [R]:
    ascending for [leb] and, where [leb] does not tell two elements apart,
    in the order [R] of the input. *)
Local Abbreviation stably R := (fun a b => leb a b = true /\ (leb b a = true -> R a b)).

Lemma insert_sorted_stably (R : A -> A -> Prop) (x : A) (l : list A) :
  StronglySorted (stably R) l -> Forall (R x) l ->
  StronglySorted (stably R) (insert_sorted leb x l).
Proof.
  induction l as [|y t IH]; simpl; intros Hs Hx.
  - repeat constructor.
  - apply StronglySorted_inv in Hs. destruct Hs as [Ht Hy].
    destruct (leb x y) eqn:E.
    + constructor; [constructor; assumption|].
      rewrite Forall_forall in *. intros z Hz. split.
      * destruct Hz as [<-|Hz]; [exact E|].
        apply (leb_trans x y z E). apply Hy. exact Hz.
      * intros _. apply Hx. exact Hz.
    + constructor.
      * apply IH; [exact Ht | inversion Hx; assumption].
      * rewrite Forall_forall in *. intros z Hz.
        apply (Permutation_in _ (Permutation_sym (insert_sorted_perm leb x t))) in Hz.
        destruct Hz as [<-|Hz]; [|apply Hy; exact Hz].
        split; [|congruence].
        destruct (leb_total x y); congruence.
Qed.

Lemma stable_sort_stably (R : A -> A -> Prop) (l : list A) :
  StronglySorted R l -> StronglySorted (stably R) (stable_sort leb l).
Proof.
  induction 1 as [|x t Ht IH Hx]; simpl; [constructor|].
  apply insert_sorted_stably; [exact IH|].
  rewrite Forall_forall in *. intros y Hy. apply Hx.
  apply (Permutation_in _ (Permutation_sym (stable_sort_perm leb t))). exact Hy.
Qed.

Lemma stable_sort_sorted (l : list A) :
  StronglySorted (fun a b => leb a b = true) (stable_sort leb l).
Proof.
  induction l as [|x t IH]; simpl; [constructor|].
  clear -IH leb_total leb_trans.
  induction (stable_sort leb t) as [|y u IHu]; simpl; [repeat constructor|].
  apply StronglySorted_inv in IH. destruct IH as [Hu Hy].
  destruct (leb x y) eqn:E.
  - constructor; [constructor; assumption|].
    rewrite Forall_forall in *. intros z [<-|Hz]; [exact E|].
    apply (leb_trans x y z E). apply Hy. exact Hz.
  - constructor; [apply IHu; exact Hu|].
    rewrite Forall_forall in *. intros z Hz.
    apply (Permutation_in _ (Permutation_sym (insert_sorted_perm leb x u))) in Hz.
    destruct Hz as [<-|Hz]; [|apply Hy; exact Hz].
    destruct (leb_total x y); congruence.
Qed.

(** [sort_descending] of an input sorted by [R]: descending for [leb], and
    elements that [leb] does not tell apart stay in the order [R]. *)
Lemma sort_descending_stably (R : A -> A -> Prop) (l : list A) :
  StronglySorted R l ->
  StronglySorted (fun a b => leb b a = true /\ (leb a b = true -> R a b))
                 (sort_descending leb l).
Proof.
  intro H. unfold sort_descending.
  apply StronglySorted_rev in H.
  apply (stable_sort_stably (fun a b => R b a)) in H.
  apply StronglySorted_rev in H. exact H.
Qed.

End SortedFacts.

(** ** The top routes *)

Lemma group_size (A : Type) (eqb : A -> A -> bool) (key : Row -> A) (k : A)
    (df : DataFrame) :
  List.length (filter (fun r => eqb k (key r)) df) = count_of eqb k (map key df).
Proof.
  unfold count_of. induction df as [|r t IH]; simpl; [reflexivity|].
  destruct (eqb k (key r)); simpl; congruence.
Qed.

Lemma route_sizes_keys (view : DataFrame) :
  route_sizes view
  = map (fun k => (k, count_of route_eqb k (map route view)))
        (stable_sort route_leb (unique route_eqb (map route view))).
Proof.
  unfold route_sizes, groupby. rewrite map_map.
  apply map_ext. intro k. simpl. rewrite group_size. reflexivity.
Qed.

Lemma route_keys_sorted (view : DataFrame) :
  StronglySorted route_lt (stable_sort route_leb (unique route_eqb (map route view))).
Proof.
  set (keys := unique route_eqb (map route view)).
  assert (Hnd : NoDup (stable_sort route_leb keys)).
  { apply (Permutation_NoDup (stable_sort_perm route_leb keys)).
    apply (unique_NoDup route_eqb route_eqb_spec). }
  pose proof (stable_sort_sorted route_leb route_leb_total route_leb_trans keys) as Hs.
  apply (StronglySorted_NoDup _ _ Hs) in Hnd.
  revert Hnd. apply StronglySorted_weaken.
  intros a b _ _ [Hle Hne]. apply route_leb_iff in Hle.
  destruct Hle; [assumption | contradiction].
Qed.

Lemma route_sizes_sorted (view : DataFrame) :
  StronglySorted (fun a b => route_lt (fst a) (fst b)) (route_sizes view).
Proof.
  rewrite route_sizes_keys.
  pose proof (route_keys_sorted view) as H.
  induction H as [|k t Ht IH Hk]; simpl; constructor; [exact IH|].
  rewrite Forall_forall in *. intros y Hy.
  apply in_map_iff in Hy. destruct Hy as [k' [<- Hk']]. simpl. apply Hk. exact Hk'.
Qed.

Lemma count_leb_total (a b : string * string * nat) :
  Nat.leb (snd a) (snd b) = true \/ Nat.leb (snd b) (snd a) = true.
Proof. rewrite !Nat.leb_le. lia. Qed.

Lemma count_leb_trans (a b c : string * string * nat) :
  Nat.leb (snd a) (snd b) = true -> Nat.leb (snd b) (snd c) = true ->
  Nat.leb (snd a) (snd c) = true.
Proof. rewrite !Nat.leb_le. lia. Qed.


(** The example of the specification: fifteen A -> B, fifteen C -> D and
    five E -> F, with A -> B first in the table. *)
Example top_routes_three_routes :
  route_counts three_routes = [("A", "B", 15%nat); ("C", "D", 15%nat); ("E", "F", 5%nat)].
Proof. vm_compute. reflexivity. Qed.


(** ** Histogram bins *)

Section SortedUnique.
Context {A : Type} (leb : A -> A -> bool) (lt : A -> A -> Prop).
Hypothesis lt_not_leb : forall a b, lt a b -> leb b a = false.


End SortedUnique.




Lemma buckets_of_cons (first : bool) (lo hi : Q) (rest xs : list Q) :
  buckets_of first (lo :: hi :: rest) xs
  = mkBucket lo hi
      (List.length
         (filter (fun x => (Qlt_bool lo x || (first && Qeq_bool x lo)) && Qle_bool x hi) xs))
    :: buckets_of false (hi :: rest) xs.
Proof. reflexivity. Qed.


Lemma buckets_of_lower (edges xs : list Q) : forall first b,
  In b (buckets_of first edges xs) -> In (lower b) (removelast edges).
Proof.
  induction edges as [|lo [|hi rest] IH]; intros first b Hb; try contradiction.
  rewrite buckets_of_cons in Hb. destruct Hb as [<-|Hb].
  - left. reflexivity.
  - right. apply (IH false b Hb).
Qed.

Lemma removelast_incl (l : list Q) (x : Q) : In x (removelast l) -> In x l.
Proof.
  induction l as [|a [|b t] IH]; simpl; [tauto | tauto |].
  intros [H|H]; [left; exact H | right; apply IH; exact H].
Qed.

Lemma buckets_of_sorted (edges xs : list Q) : forall first,
  StronglySorted Qlt edges ->
  StronglySorted (fun a b => (lower a < lower b)%Q) (buckets_of first edges xs).
Proof.
  induction edges as [|lo [|hi rest] IH]; intros first Hs; [constructor | constructor |].
  rewrite buckets_of_cons.
  apply StronglySorted_inv in Hs. destruct Hs as [Hs Hlo].
  constructor; [apply IH; exact Hs|].
  rewrite Forall_forall in *. intros b Hb. cbn [lower].
  apply Hlo. apply removelast_incl. apply (buckets_of_lower _ _ _ _ Hb).
Qed.

Lemma buckets_of_contiguous (edges xs : list Q) : forall first,
  contiguous (buckets_of first edges xs).
Proof.
  induction edges as [|lo [|hi [|hi' rest]] IH]; intro first; try exact I.
  specialize (IH false).
  rewrite buckets_of_cons. rewrite buckets_of_cons in IH |- *.
  cbn [contiguous upper lower]. split; [reflexivity | exact IH].
Qed.

Lemma buckets_of_widths (step : Q) (edges xs : list Q) : forall first,
  evenly_spaced step edges ->
  Forall (fun b => (width b == step)%Q) (buckets_of first edges xs).
Proof.
  induction edges as [|lo [|hi rest] IH]; intros first He; [constructor | constructor |].
  rewrite buckets_of_cons. destruct He as [He He'].
  constructor; [exact He | apply IH; exact He'].
Qed.

Lemma buckets_of_positive (edges xs : list Q) : forall first,
  StronglySorted Qlt edges ->
  Forall (fun b => (lower b < upper b)%Q) (buckets_of first edges xs).
Proof.
  induction edges as [|lo [|hi rest] IH]; intros first Hs; [constructor | constructor |].
  rewrite buckets_of_cons.
  apply StronglySorted_inv in Hs. destruct Hs as [Hs Hlo].
  constructor; [|apply IH; exact Hs].
  inversion Hlo; assumption.
Qed.


(** ** Evenly spaced edges *)

Section Linspace.
Variables (start step : Q).

Local Abbreviation edge i := (start + inject_Z (Z.of_nat i) * step)%Q.









End Linspace.




(** ** Interval labels *)

Lemma pow10_pos (e : Z) : (0 < 10 ^ e)%Q.
Proof. apply Qpower_0_lt. reflexivity. Qed.



Lemma size_nat_spec (p : positive) : Zpos p < 2 ^ Z.of_nat (Pos.size_nat p).
Proof.
  induction p as [p IH | p IH |]; cbn [Pos.size_nat].
  - rewrite Nat2Z.inj_succ, Z.pow_succ_r by lia. lia.
  - rewrite Nat2Z.inj_succ, Z.pow_succ_r by lia. lia.
  - reflexivity.
Qed.

Lemma pow10_succ (e : Z) : (10 ^ (e + 1) == 10 ^ e * 10)%Q.
Proof. rewrite Qpower_plus by discriminate. reflexivity. Qed.

Lemma decimal_shifts_spec (fuel : nat) : forall x : Q,
  (0 < x)%Q -> (x < 1)%Q -> (1 <= x * 10 ^ Z.of_nat fuel)%Q ->
  (x * 10 ^ (decimal_shifts fuel x - 1) < 1)%Q
  /\ (1 <= x * 10 ^ decimal_shifts fuel x)%Q.
Proof.
  induction fuel as [|f IH]; intros x H0 H1 Hfuel.
  - change (10 ^ Z.of_nat 0)%Q with 1%Q in Hfuel. lra.
  - cbn [decimal_shifts].
    destruct (Qle_bool 1 (x * 10)) eqn:E.
    + apply Qle_bool_iff in E. change (10 ^ (1 - 1))%Q with 1%Q.
      change (10 ^ 1)%Q with 10%Q. split; lra.
    + assert (E' : (x * 10 < 1)%Q).
      { apply Qnot_le_lt. intro H. apply Qle_bool_iff in H. congruence. }
      assert (Hf : (1 <= x * 10 * 10 ^ Z.of_nat f)%Q).
      { rewrite Nat2Z.inj_succ in Hfuel. unfold Z.succ in Hfuel.
        rewrite pow10_succ in Hfuel.
        revert Hfuel. generalize (10 ^ Z.of_nat f)%Q. intros t Hfuel.
        setoid_replace (x * 10 * t)%Q with (x * (t * 10))%Q by ring. exact Hfuel. }
      destruct (IH (x * 10)%Q ltac:(lra) E' Hf) as [IH1 IH2].
      set (m := decimal_shifts f (x * 10)) in *.
      replace (1 + m - 1) with (m - 1 + 1) by lia.
      replace (1 + m) with (m + 1) by lia.
      rewrite !pow10_succ.
      revert IH1 IH2. generalize (10 ^ (m - 1))%Q (10 ^ m)%Q. intros a b IH1 IH2.
      split; [|].
      * setoid_replace (x * (a * 10))%Q with (x * 10 * a)%Q by ring. exact IH1.
      * setoid_replace (x * (b * 10))%Q with (x * 10 * b)%Q by ring. exact IH2.
Qed.

(** [floor_log10 x] is the floor of the decimal logarithm of [x]. *)
Lemma floor_log10_spec (x : Q) :
  (0 < x)%Q -> (x < 1)%Q ->
  (10 ^ floor_log10 x <= x)%Q /\ (x < 10 ^ (floor_log10 x + 1))%Q.
Proof.
  intros H0 H1. unfold floor_log10.
  assert (Hfuel : (1 <= x * 10 ^ Z.of_nat (Pos.size_nat (Qden x)))%Q).
  { pose proof (size_nat_spec (Qden x)) as Hs.
    set (n := Z.of_nat (Pos.size_nat (Qden x))) in *.
    assert (Hn : 0 <= n) by (unfold n; lia).
    assert (H2 : 2 ^ n <= 10 ^ n) by (apply Z.pow_le_mono_l; lia).
    assert (Hd : (inject_Z (Zpos (Qden x)) <= 10 ^ n)%Q).
    { rewrite <- (Zpower_Qpower 10 n Hn). rewrite <- Zle_Qle. lia. }
    assert (Hx : (1 <= x * inject_Z (Zpos (Qden x)))%Q).
    { destruct x as [a d]. unfold Qlt in H0. unfold Qle, Qmult, inject_Z. simpl in *. nia. }
    revert Hd Hx. generalize (inject_Z (Zpos (Qden x))) (10 ^ n)%Q. intros d t Hd Hx.
    nra. }
  destruct (decimal_shifts_spec _ x H0 H1 Hfuel) as [Hlt Hle].
  set (m := decimal_shifts (Pos.size_nat (Qden x)) x) in *.
  replace (- m + 1) with (- (m - 1)) by lia.
  rewrite !Qpower_opp.
  pose proof (pow10_pos m) as Hm. pose proof (pow10_pos (m - 1)) as Hm'.
  split.
  - apply Qle_shift_inv_r; [exact Hm | exact Hle].
  - apply Qlt_shift_inv_l; [exact Hm'|]. exact Hlt.
Qed.










(** ** Bins under their labels *)








(** ** Categories *)

Section Categories.
Context {A : Type} (eqb : A -> A -> bool) (weight : A -> nat).
Hypothesis eqb_refl : forall a, eqb a a = true.
Hypothesis eqb_class : forall a b, eqb a b = true -> forall y, eqb a y = eqb b y.

Local Abbreviation total l := (list_sum (map weight l)).









End Categories.







(** ** The price histogram *)







Lemma apart_sorted (gap : Q) (l : list Q) :
  (0 <= gap)%Q -> apart gap l -> StronglySorted Qlt l.
Proof.
  intro Hg. unfold apart. apply StronglySorted_weaken. intros a b _ _ H. lra.
Qed.





(** The histogram of two tickets priced 0 and 10 in ten bins: the cut edges
    are -0.01, 1, 2, ..., 10 and the first label is (-0.011, 1.0]. *)
Example histogram_zero_and_ten :
  option_map (map (fun b => (Qred (lower b), Qred (upper b), tally b)))
             (price_histogram zero_and_ten 10)
  = Some [(-11 # 1000, 1, 1%nat); (1, 2, 0%nat); (2, 3, 0%nat); (3, 4, 0%nat);
          (4, 5, 0%nat); (5, 6, 0%nat); (6, 7, 0%nat); (7, 8, 0%nat);
          (8, 9, 0%nat); (9, 10, 1%nat)]%Q.
Proof. vm_compute. reflexivity. Qed.


Lemma C10_gender_counts_witness :
  let view := df_selection
                (load_data [mkCsvRow "Bus" "Work" 1 0 (500000 # 1) 0 1 "A" "B" 0 0;
                            mkCsvRow "Bus" "Work" 1 0 (500000 # 1) 0 2 "A" "B" 0 0;
                            mkCsvRow "Bus" "Work" 1 0 (500000 # 1) 0 0 "A" "B" 0 0])
                (mkWidgets [] [] [] [] (0, 1000000) [] 50) in
  (list_sum (map snd (gender_counts view)) <= total_tickets view)%nat.
Proof.
  intro view.
  apply (C10_gender_counts
           [mkCsvRow "Bus" "Work" 1 0 (500000 # 1) 0 1 "A" "B" 0 0;
            mkCsvRow "Bus" "Work" 1 0 (500000 # 1) 0 2 "A" "B" 0 0;
            mkCsvRow "Bus" "Work" 1 0 (500000 # 1) 0 0 "A" "B" 0 0]
           (mkWidgets [] [] [] [] (0, 1000000) [] 50)).
Defined.


(* ================================================================== *)
(** * Part III: further properties of the script *)
(* ================================================================== *)

(** ** The filtered view *)

(** X1. Filtering a filtered view again with the same widget values changes
    nothing, and a filtered view never has more rows than the table. *)
Theorem X1_selection_idempotent (df : DataFrame) (w : Widgets) :
  df_selection (df_selection df w) w = df_selection df w
  /\ (List.length (df_selection df w) <= List.length df)%nat.
Proof.
  split.
  - rewrite !df_selection_conj, filter_twice.
    apply filter_ext. intro r.
    destruct (forallb (fun p => p r) (dimension_filters w)); reflexivity.
  - rewrite df_selection_conj. apply filter_length_le.
Qed.

Lemma in_price_range_narrow (lo hi lo' hi' : Z) (r : Row) :
  lo <= lo' -> hi' <= hi ->
  in_price_range (lo', hi') r = true -> in_price_range (lo, hi) r = true.
Proof.
  intros Hlo Hhi. rewrite !in_price_range_iff. cbn [fst snd].
  rewrite Zle_Qle in Hlo, Hhi. intros [H1 H2]. split.
  - eapply Qle_trans; eassumption.
  - eapply Qle_trans; eassumption.
Qed.

(** X2. Narrowing the price range refines the view: the view for a range
    inside another one is the view for the wider range, filtered by the
    narrower range; no row comes back that the wider range had left out. *)
Theorem X2_narrower_price_range (df : DataFrame) (vt tr : list string) (dm cn : list Z)
    (gf : list (option string)) (pb lo hi lo' hi' : Z) :
  lo <= lo' -> hi' <= hi ->
  df_selection df (mkWidgets vt tr dm cn (lo', hi') gf pb)
  = filter (in_price_range (lo', hi'))
      (df_selection df (mkWidgets vt tr dm cn (lo, hi) gf pb)).
Proof.
  intros Hlo Hhi.
  rewrite !df_selection_steps.
  unfold apply_filters, dimension_filters.
  cbn [fold_left w_vehicle_types w_trip_reasons w_domestic_filter w_cancel_filter
       w_gender_filter w_price_range].
  set (others := filter (fun r => selected_or_unfiltered label_eqb gf (Gender r)) _).
  rewrite filter_twice. apply filter_ext. intro r.
  destruct (in_price_range (lo', hi') r) eqn:E.
  - rewrite (in_price_range_narrow lo hi lo' hi' r Hlo Hhi E). reflexivity.
  - symmetry. apply andb_false_r.
Qed.

Lemma X2_narrower_price_range_witness :
  df_selection fractional_prices (mkWidgets [] [] [] [] (10, 15) [] 50)
  = filter (in_price_range (10, 15))
      (df_selection fractional_prices (mkWidgets [] [] [] [] (0, 30) [] 50)).
Proof.
  apply (X2_narrower_price_range fractional_prices [] [] [] [] [] 50 0 30 10 15); lia.
Defined.

(** ** The sidebar *)

Lemma header_and_sidebar_empty (w : Widgets) :
  header_and_sidebar [] w
  = ([ title "✈️ Travel Tickets Data Analysis";
       markdown "
This application performs exploratory data analysis (EDA) on the Travel Tickets dataset.
Use the filters in the sidebar to explore different aspects of ticket sales and customer behavior.
";
       sidebar_header "Filter Your Data";
       sidebar_multiselect "Select Vehicle Type" [] [];
       sidebar_multiselect "Select Trip Reason" [] [];
       sidebar_multiselect "Select Trip Type" [] [];
       sidebar_multiselect "Select Cancel Status" [] [] ],
     Raised "ValueError: cannot convert float NaN to integer").
Proof. reflexivity. Qed.

Lemma header_and_sidebar_run (df : DataFrame) (w : Widgets) (mn mx : Q) :
  series_min (map Price df) = Some mn ->
  series_max (map Price df) = Some mx ->
  header_and_sidebar df w
  = ([ title "✈️ Travel Tickets Data Analysis";
       markdown "
This application performs exploratory data analysis (EDA) on the Travel Tickets dataset.
Use the filters in the sidebar to explore different aspects of ticket sales and customer behavior.
";
       sidebar_header "Filter Your Data";
       sidebar_multiselect "Select Vehicle Type"
         (map CStr (unique String.eqb (map Vehicle df)))
         (map CStr (unique String.eqb (map Vehicle df)));
       sidebar_multiselect "Select Trip Reason"
         (map CStr (unique String.eqb (map TripReason df)))
         (map CStr (unique String.eqb (map TripReason df)));
       sidebar_multiselect "Select Trip Type"
         (map CInt (unique Z.eqb (map Domestic df)))
         (map CInt (unique Z.eqb (map Domestic df)));
       sidebar_multiselect "Select Cancel Status"
         (map CInt (unique Z.eqb (map Cancel df)))
         (map CInt (unique Z.eqb (map Cancel df)));
       sidebar_slider "Select Price Range" (py_int mn) (py_int mx) (py_int mn, py_int mx);
       sidebar_multiselect "Select Gender"
         (map cell_of_label (unique label_eqb (map Gender df)))
         (map cell_of_label (unique label_eqb (map Gender df))) ], Continue w).
Proof.
  intros Hmn Hmx. unfold header_and_sidebar.
  rewrite (sidebar_run df w mn mx Hmn Hmx). reflexivity.
Qed.

Lemma price_extremes (df : DataFrame) :
  df <> [] ->
  exists mn mx, series_min (map Price df) = Some mn /\ series_max (map Price df) = Some mx.
Proof.
  intro Hne.
  assert (Hp : map Price df <> []) by (destruct df; [congruence | discriminate]).
  destruct (series_min_spec _ Hp) as [mn [Hmn _]].
  destruct (series_max_spec _ Hp) as [mx [Hmx _]].
  exists mn, mx. split; assumption.
Qed.

(** X3. What the top of the page and the sidebar show is computed from the
    loaded table alone: it is the same whatever the widgets hold, so
    filtering never changes the options or the bounds on offer. *)
Theorem X3_sidebar_ignores_selection (df : DataFrame) (w w' : Widgets) :
  printed (header_and_sidebar df w) = printed (header_and_sidebar df w').
Proof.
  destruct df as [|r t].
  - reflexivity.
  - destruct (price_extremes (r :: t)) as (mn & mx & Hmn & Hmx); [discriminate|].
    rewrite !(header_and_sidebar_run _ _ mn mx Hmn Hmx). reflexivity.
Qed.

Lemma CStr_injective : forall a b, CStr a = CStr b -> a = b.
Proof. intros a b [=]. assumption. Qed.

Lemma CInt_injective : forall a b, CInt a = CInt b -> a = b.
Proof. intros a b [=]. assumption. Qed.

Lemma cell_of_label_injective : forall a b, cell_of_label a = cell_of_label b -> a = b.
Proof. intros [a|] [b|]; simpl; congruence. Qed.

Lemma options_NoDup (A : Type) (eqb : A -> A -> bool) (show : A -> Cell) (l : list A) :
  (forall x y, eqb x y = true <-> x = y) ->
  (forall a b, show a = show b -> a = b) ->
  NoDup (map show (unique eqb l)).
Proof.
  intros Heq Hinj. apply Injective_map_NoDup; [exact Hinj|].
  apply unique_NoDup. exact Heq.
Qed.

(** X4. Every multiselect of the sidebar starts with all of its options
    selected and offers no option twice. *)
Theorem X4_multiselect_options (df : DataFrame) (w : Widgets) (label : string)
    (options default : list Cell) :
  In (sidebar_multiselect label options default) (printed (header_and_sidebar df w)) ->
  default = options /\ NoDup options.
Proof.
  assert (Hdf : df = [] \/ df <> []) by (destruct df; [left; reflexivity | right; discriminate]).
  destruct Hdf as [-> | Hne].
  - rewrite header_and_sidebar_empty. unfold printed. cbn [fst In].
    intro H.
    repeat (destruct H as [H|H];
            [first [discriminate H
                   | injection H as _ <- <-; split; [reflexivity | constructor]]|]).
    destruct H.
  - destruct (price_extremes df Hne) as (mn & mx & Hmn & Hmx).
    rewrite (header_and_sidebar_run _ _ mn mx Hmn Hmx). unfold printed. cbn [fst In].
    intro H.
    repeat (destruct H as [H|H];
            [first [discriminate H | injection H as _ <- <-; split; [reflexivity|]]|]);
      try solve [destruct H].
    + apply options_NoDup; [apply String.eqb_eq | apply CStr_injective].
    + apply options_NoDup; [apply String.eqb_eq | apply CStr_injective].
    + apply options_NoDup; [apply Z.eqb_eq | apply CInt_injective].
    + apply options_NoDup; [apply Z.eqb_eq | apply CInt_injective].
    + apply options_NoDup; [apply label_eqb_spec | apply cell_of_label_injective].
Qed.

Lemma X4_multiselect_options_witness :
  NoDup (map CStr (unique String.eqb (map Vehicle fractional_prices))).
Proof.
  apply (X4_multiselect_options fractional_prices nothing_selected "Select Vehicle Type"
           (map CStr (unique String.eqb (map Vehicle fractional_prices)))
           (map CStr (unique String.eqb (map Vehicle fractional_prices)))).
  vm_compute. tauto.
Defined.

(** X5. On a table that is not empty the sidebar offers, for each of the
    five categorical columns, exactly the values that occur in that column
    of the loaded table. *)
Theorem X5_multiselect_covers_column (df : DataFrame) (w : Widgets) :
  df <> [] ->
  exists vehicles reasons trip_types statuses genders,
    In (sidebar_multiselect "Select Vehicle Type" vehicles vehicles)
       (printed (header_and_sidebar df w))
    /\ In (sidebar_multiselect "Select Trip Reason" reasons reasons)
          (printed (header_and_sidebar df w))
    /\ In (sidebar_multiselect "Select Trip Type" trip_types trip_types)
          (printed (header_and_sidebar df w))
    /\ In (sidebar_multiselect "Select Cancel Status" statuses statuses)
          (printed (header_and_sidebar df w))
    /\ In (sidebar_multiselect "Select Gender" genders genders)
          (printed (header_and_sidebar df w))
    /\ (forall v, In (CStr v) vehicles <-> exists r, In r df /\ Vehicle r = v)
    /\ (forall v, In (CStr v) reasons <-> exists r, In r df /\ TripReason r = v)
    /\ (forall v, In (CInt v) trip_types <-> exists r, In r df /\ Domestic r = v)
    /\ (forall v, In (CInt v) statuses <-> exists r, In r df /\ Cancel r = v)
    /\ (forall v, In (cell_of_label v) genders <-> exists r, In r df /\ Gender r = v).
Proof.
  intro Hne.
  destruct (price_extremes df Hne) as (mn & mx & Hmn & Hmx).
  rewrite (header_and_sidebar_run df w mn mx Hmn Hmx). unfold printed. cbn [fst].
  assert (Hcover : forall (A : Type) (eqb : A -> A -> bool) (show : A -> Cell)
                          (key : Row -> A) (v : A),
             (forall x y, eqb x y = true <-> x = y) ->
             (forall a b, show a = show b -> a = b) ->
             (In (show v) (map show (unique eqb (map key df)))
              <-> exists r, In r df /\ key r = v)).
  { intros A eqb show key v Heq Hinj. split.
    - intro H. apply in_map_iff in H. destruct H as [v' [Hv' H]].
      apply Hinj in Hv'. subst v'.
      apply (proj1 (unique_In eqb Heq _ _)) in H.
      apply in_map_iff in H. destruct H as [r [Hr H]]. exists r. auto.
    - intros [r [Hr <-]]. apply in_map. apply (unique_In eqb Heq). apply in_map. exact Hr. }
  exists (map CStr (unique String.eqb (map Vehicle df))),
         (map CStr (unique String.eqb (map TripReason df))),
         (map CInt (unique Z.eqb (map Domestic df))),
         (map CInt (unique Z.eqb (map Cancel df))),
         (map cell_of_label (unique label_eqb (map Gender df))).
  do 5 (split; [cbn [In]; tauto|]).
  split; [intro v; apply (Hcover _ String.eqb CStr Vehicle v String.eqb_eq CStr_injective)|].
  split; [intro v; apply (Hcover _ String.eqb CStr TripReason v String.eqb_eq CStr_injective)|].
  split; [intro v; apply (Hcover _ Z.eqb CInt Domestic v Z.eqb_eq CInt_injective)|].
  split; [intro v; apply (Hcover _ Z.eqb CInt Cancel v Z.eqb_eq CInt_injective)|].
  intro v. apply (Hcover _ label_eqb cell_of_label Gender v label_eqb_spec
                    cell_of_label_injective).
Qed.

Lemma X5_multiselect_covers_column_witness :
  exists vehicles,
    In (sidebar_multiselect "Select Vehicle Type" vehicles vehicles)
       (printed (header_and_sidebar one_ticket nothing_selected))
    /\ In (CStr "Plane") vehicles.
Proof.
  assert (Hne : one_ticket <> []) by discriminate.
  destruct (X5_multiselect_covers_column one_ticket nothing_selected Hne)
    as (vehicles & _ & _ & _ & _ & Hin & _ & _ & _ & _ & Hv & _).
  exists vehicles. split; [exact Hin|].
  apply Hv. eexists. split; [left; reflexivity | reflexivity].
Defined.

(** ** How a run ends *)







(** ** Counts per category *)

Lemma StronglySorted_any (A : Type) (l : list A) : StronglySorted (fun _ _ => True) l.
Proof.
  induction l as [|x t IH]; constructor; [exact IH|].
  apply Forall_forall. trivial.
Qed.

Lemma count_leb_total' (a b : string * nat) :
  Nat.leb (snd a) (snd b) = true \/ Nat.leb (snd b) (snd a) = true.
Proof. rewrite !Nat.leb_le. lia. Qed.

Lemma count_leb_trans' (a b c : string * nat) :
  Nat.leb (snd a) (snd b) = true -> Nat.leb (snd b) (snd c) = true ->
  Nat.leb (snd a) (snd c) = true.
Proof. rewrite !Nat.leb_le. lia. Qed.

Lemma count_of_positive (x : string) (l : list string) :
  In x l -> (0 < count_of String.eqb x l)%nat.
Proof.
  intro H. unfold count_of.
  assert (Hin : In x (filter (String.eqb x) l)).
  { apply filter_In. split; [exact H | apply String.eqb_refl]. }
  destruct (filter (String.eqb x) l); [contradiction | simpl; lia].
Qed.

Lemma value_counts_spec (l : list string) :
  NoDup (map fst (value_counts l))
  /\ (forall x c, In (x, c) (value_counts l)
                  <-> In x l /\ c = count_of String.eqb x l)
  /\ StronglySorted (fun a b => (snd b <= snd a)%nat) (value_counts l)
  /\ list_sum (map snd (value_counts l)) = List.length l.
Proof.
  split; [|split; [|split]].
  - unfold value_counts.
    apply (Permutation_NoDup (Permutation_map fst (sort_descending_perm _ _))).
    rewrite map_map. simpl. rewrite map_id.
    apply (unique_NoDup String.eqb String.eqb_eq).
  - intros x c. split; [apply value_counts_In|].
    intros [Hx ->]. unfold value_counts.
    apply (Permutation_in _ (sort_descending_perm _ _)).
    apply in_map_iff. exists x. split; [reflexivity|].
    apply (unique_In String.eqb String.eqb_eq). exact Hx.
  - unfold value_counts.
    pose proof (sort_descending_stably _ count_leb_total' count_leb_trans' _ _
                  (StronglySorted_any _
                     (map (fun x => (x, count_of String.eqb x l))
                          (unique String.eqb l)))) as H.
    revert H. apply StronglySorted_weaken.
    intros a b _ _ [H _]. apply Nat.leb_le. exact H.
  - apply value_counts_total.
Qed.

(** X8. The "Ticket Count by Vehicle Type" series lists each vehicle type
    of the filtered view exactly once, with the number of its rows (never
    zero: a type with no row in the view is absent), by descending count,
    and its counts add up to Total Tickets. *)
Theorem X8_vehicle_counts (view : DataFrame) :
  NoDup (map fst (vehicle_counts view))
  /\ (forall v c, In (v, c) (vehicle_counts view)
                  <-> (exists r, In r view /\ Vehicle r = v)
                      /\ c = List.length (filter (fun r => String.eqb v (Vehicle r)) view))
  /\ (forall v c, In (v, c) (vehicle_counts view) -> (0 < c)%nat)
  /\ StronglySorted (fun a b => (snd b <= snd a)%nat) (vehicle_counts view)
  /\ list_sum (map snd (vehicle_counts view)) = total_tickets view.
Proof.
  unfold vehicle_counts, total_tickets.
  destruct (value_counts_spec (map Vehicle view)) as (Hnd & Hin & Hsorted & Hsum).
  split; [exact Hnd|]. split; [|split; [|split]].
  - intros v c. rewrite Hin, in_map_iff, (group_size _ String.eqb Vehicle v view).
    split; intros [[r Hr] Hc]; (split; [exists r; tauto | exact Hc]).
  - intros v c H. apply Hin in H. destruct H as [Hv ->].
    apply count_of_positive. exact Hv.
  - exact Hsorted.
  - rewrite Hsum. apply length_map.
Qed.

(** ** Means *)

Lemma inject_nat_succ (n : nat) :
  (inject_Z (Z.of_nat (S n)) == inject_Z (Z.of_nat n) + 1)%Q.
Proof.
  rewrite Nat2Z.inj_succ. unfold Z.succ. rewrite inject_Z_plus. reflexivity.
Qed.

Lemma inject_nat_positive (n : nat) : (0 < inject_Z (Z.of_nat (S n)))%Q.
Proof. change 0%Q with (inject_Z 0). rewrite <- Zlt_Qlt. lia. Qed.

Lemma Qsum_bounds (a b : Q) (l : list Q) :
  (forall x, In x l -> (a <= x <= b)%Q) ->
  (a * inject_Z (Z.of_nat (List.length l)) <= Qsum l)%Q
  /\ (Qsum l <= b * inject_Z (Z.of_nat (List.length l)))%Q.
Proof.
  induction l as [|x t IH]; intro H.
  - cbn [List.length Qsum fold_right Z.of_nat]. change (inject_Z 0) with 0%Q.
    split; lra.
  - destruct IH as [IH1 IH2]; [intros y Hy; apply H; right; exact Hy|].
    destruct (H x (or_introl eq_refl)) as [Hx1 Hx2].
    cbn [List.length Qsum fold_right]. fold (Qsum t).
    rewrite inject_nat_succ.
    assert (Ea : (a * (inject_Z (Z.of_nat (List.length t)) + 1)
                  == a * inject_Z (Z.of_nat (List.length t)) + a)%Q) by ring.
    assert (Eb : (b * (inject_Z (Z.of_nat (List.length t)) + 1)
                  == b * inject_Z (Z.of_nat (List.length t)) + b)%Q) by ring.
    rewrite Ea, Eb.
    revert IH1 IH2.
    generalize (a * inject_Z (Z.of_nat (List.length t)))%Q.
    generalize (b * inject_Z (Z.of_nat (List.length t)))%Q.
    generalize (Qsum t).
    intros s bn an IH1 IH2. split; lra.
Qed.

(** The mean of a column that is not empty is a number, and it lies
    between any two bounds of the column. *)
Lemma mean_bounds (a b : Q) (l : list Q) :
  l <> [] ->
  (forall x, In x l -> (a <= x <= b)%Q) ->
  exists m, mean l = Some m /\ (a <= m <= b)%Q.
Proof.
  intros Hne H.
  destruct (Qsum_bounds a b l H) as [H1 H2].
  destruct l as [|x t]; [congruence|].
  eexists. split; [reflexivity|].
  pose proof (inject_nat_positive (List.length t)) as Hpos.
  change (List.length (x :: t)) with (S (List.length t)) in *.
  split.
  - apply Qle_shift_div_l; assumption.
  - apply Qle_shift_div_r; assumption.
Qed.

Lemma mean_some (l : list Q) : l <> [] -> exists m, mean l = Some m.
Proof.
  destruct l as [|x t]; [congruence|]. intros _. eexists. reflexivity.
Qed.

(** ** Groups *)

Lemma string_leb_iff (a b : string) :
  String.leb a b = true <-> String.compare a b = Lt \/ a = b.
Proof.
  unfold String.leb.
  destruct (String.compare a b) eqn:E.
  - apply string_compare_eq in E. tauto.
  - tauto.
  - split; [discriminate|]. intros [H|H]; [discriminate|].
    subst. rewrite string_compare_refl in E. discriminate.
Qed.

Lemma string_leb_trans (a b c : string) :
  String.leb a b = true -> String.leb b c = true -> String.leb a c = true.
Proof.
  rewrite !string_leb_iff. intros [H1 | ->] [H2 | ->]; auto.
  left. eapply string_lt_trans; eassumption.
Qed.

Section GroupFacts.
Context {K : Type} (eqb leb : K -> K -> bool) (key : Row -> K).
Hypothesis eqb_spec : forall x y, eqb x y = true <-> x = y.
Hypothesis leb_total : forall a b, leb a b = true \/ leb b a = true.
Hypothesis leb_trans : forall a b c, leb a b = true -> leb b c = true -> leb a c = true.

Lemma groupby_keys (df : DataFrame) :
  map fst (groupby eqb leb key df) = stable_sort leb (unique eqb (map key df)).
Proof.
  unfold groupby. rewrite map_map. simpl. apply map_id.
Qed.

Lemma groupby_keys_NoDup (df : DataFrame) : NoDup (map fst (groupby eqb leb key df)).
Proof.
  rewrite groupby_keys.
  apply (Permutation_NoDup (stable_sort_perm leb _)).
  apply (unique_NoDup eqb eqb_spec).
Qed.

Lemma groupby_keys_sorted (df : DataFrame) :
  StronglySorted (fun a b => leb a b = true /\ a <> b) (map fst (groupby eqb leb key df)).
Proof.
  apply StronglySorted_NoDup; [|apply groupby_keys_NoDup].
  rewrite groupby_keys. apply stable_sort_sorted; assumption.
Qed.

Lemma groupby_In (df : DataFrame) (k : K) (g : DataFrame) :
  In (k, g) (groupby eqb leb key df)
  <-> In k (map key df) /\ g = filter (fun r => eqb k (key r)) df.
Proof.
  unfold groupby. split.
  - intro H. apply in_map_iff in H. destruct H as [k' [E Hk]].
    injection E as Ek Eg. subst k'.
    apply (Permutation_in _ (Permutation_sym (stable_sort_perm leb _))) in Hk.
    apply (proj1 (unique_In eqb eqb_spec _ _)) in Hk. auto.
  - intros [Hk ->]. apply in_map_iff. exists k. split; [reflexivity|].
    apply (Permutation_in _ (stable_sort_perm leb _)).
    apply (unique_In eqb eqb_spec). exact Hk.
Qed.

Lemma groupby_nonempty (df : DataFrame) (k : K) (g : DataFrame) :
  In (k, g) (groupby eqb leb key df) ->
  g <> [] /\ forall r, In r g <-> In r df /\ key r = k.
Proof.
  intro H. apply groupby_In in H. destruct H as [Hk ->]. split.
  - apply in_map_iff in Hk. destruct Hk as [r [<- Hr]].
    assert (Hin : In r (filter (fun r0 => eqb (key r) (key r0)) df)).
    { apply filter_In. split; [exact Hr | apply eqb_spec; reflexivity]. }
    intro E. rewrite E in Hin. exact Hin.
  - intro r. rewrite filter_In, eqb_spec. intuition congruence.
Qed.

Lemma groupby_sizes (df : DataFrame) :
  list_sum (map (fun kg => List.length (snd kg)) (groupby eqb leb key df))
  = List.length df.
Proof.
  unfold groupby. rewrite map_map. cbn [snd].
  rewrite (list_sum_perm _ _
             (Permutation_map _ (Permutation_sym (stable_sort_perm leb _)))).
  rewrite (map_ext _ (fun k => count_of eqb k (map key df)))
    by (intro k; apply group_size).
  rewrite (counts_total eqb eqb_spec (List.length (map key df)) (map key df) (le_n _)).
  apply length_map.
Qed.

End GroupFacts.

Lemma by_vehicle_sorted (view : DataFrame) :
  StronglySorted (fun a b => String.compare a b = Lt) (map fst (by_vehicle view)).
Proof.
  pose proof (groupby_keys_sorted String.eqb String.leb Vehicle String.eqb_eq
                String.leb_total string_leb_trans view) as H.
  revert H. apply StronglySorted_weaken.
  intros a b _ _ [Hle Hne]. apply string_leb_iff in Hle.
  destruct Hle; [assumption | contradiction].
Qed.

(** X9. The "Average Price by Vehicle Type" series has one bar for each
    vehicle type of the filtered view, by ascending name.  A bar is never
    NaN: its value is the mean of the prices of the rows of that type, and
    it lies between any two bounds of those prices. *)
Theorem X9_avg_price_vehicle (view : DataFrame) :
  StronglySorted (fun a b => String.compare a b = Lt) (map fst (avg_price_vehicle view))
  /\ (forall v, In v (map fst (avg_price_vehicle view))
                <-> exists r, In r view /\ Vehicle r = v)
  /\ (forall v bar, In (v, bar) (avg_price_vehicle view) ->
        exists m, bar = Some m
          /\ mean (map Price (filter (fun r => String.eqb v (Vehicle r)) view)) = Some m
          /\ forall lo hi,
               (forall r, In r view -> Vehicle r = v -> (lo <= Price r <= hi)%Q) ->
               (lo <= m <= hi)%Q).
Proof.
  assert (Hkeys : map fst (avg_price_vehicle view) = map fst (by_vehicle view)).
  { unfold avg_price_vehicle. rewrite map_map. reflexivity. }
  split; [rewrite Hkeys; apply by_vehicle_sorted|]. split.
  - intro v. rewrite Hkeys. unfold by_vehicle.
    rewrite (groupby_keys String.eqb String.leb Vehicle).
    split.
    + intro H.
      apply (Permutation_in _ (Permutation_sym (stable_sort_perm String.leb _))) in H.
      apply (proj1 (unique_In String.eqb String.eqb_eq _ _)) in H.
      apply in_map_iff in H. destruct H as [r [Hr H]]. exists r. auto.
    + intros [r [Hr <-]].
      apply (Permutation_in _ (stable_sort_perm String.leb _)).
      apply (unique_In String.eqb String.eqb_eq). apply in_map. exact Hr.
  - intros v bar H. unfold avg_price_vehicle in H.
    apply in_map_iff in H. destruct H as [[k g] [[= <- <-] Hg]]. cbn [fst snd].
    destruct (groupby_nonempty String.eqb String.leb Vehicle String.eqb_eq view k g Hg)
      as [Hne Hrows].
    apply (groupby_In String.eqb String.leb Vehicle String.eqb_eq) in Hg.
    destruct Hg as [_ Eg].
    assert (Hp : map Price g <> []) by (destruct g; [congruence | discriminate]).
    destruct (mean_some _ Hp) as [m Hm].
    exists m. split; [exact Hm|]. split; [rewrite <- Eg; exact Hm|].
    intros lo hi Hb.
    destruct (mean_bounds lo hi (map Price g) Hp) as [m' [Hm' Hbm]].
    + intros x Hx. apply in_map_iff in Hx. destruct Hx as [r [<- Hr]].
      apply Hrows in Hr. destruct Hr as [Hr Hv]. apply Hb; assumption.
    + congruence.
Qed.

Lemma X9_avg_price_vehicle_witness :
  In "Plane" (map fst (avg_price_vehicle fractional_prices)).
Proof.
  apply (proj1 (proj2 (X9_avg_price_vehicle fractional_prices))).
  eexists. split; [left; reflexivity | reflexivity].
Defined.

(** X10. When every [Cancel] of the filtered view is 0 or 1, every bar of
    "Cancellation Rate by Vehicle Type" is a percentage between 0 and
    100. *)
Theorem X10_cancel_by_vehicle_percent (view : DataFrame) :
  (forall r, In r view -> Cancel r = 0 \/ Cancel r = 1) ->
  forall v bar, In (v, bar) (cancel_by_vehicle view) ->
    exists p, bar = Some p /\ (0 <= p <= 100)%Q.
Proof.
  intros Hc v bar H. unfold cancel_by_vehicle in H.
  apply in_map_iff in H. destruct H as [[k g] [[= <- <-] Hg]]. cbn [fst snd].
  destruct (groupby_nonempty String.eqb String.leb Vehicle String.eqb_eq view k g Hg)
    as [Hne Hrows].
  assert (Hp : cancel_column g <> []) by (destruct g; [congruence | discriminate]).
  destruct (mean_bounds 0 1 (cancel_column g) Hp) as [m [Hm Hbm]].
  - intros x Hx. unfold cancel_column in Hx.
    apply in_map_iff in Hx. destruct Hx as [r [<- Hr]].
    apply Hrows in Hr. destruct Hr as [Hr _].
    destruct (Hc r Hr) as [-> | ->]; split; discriminate.
  - rewrite Hm. cbn [option_map]. eexists. split; [reflexivity|].
    destruct Hbm. split; lra.
Qed.

Lemma X10_cancel_by_vehicle_percent_witness :
  exists p, In ("Bus", Some p) (cancel_by_vehicle (view_with_cancellations 4 1))
            /\ (0 <= p <= 100)%Q.
Proof.
  assert (Hc : forall r, In r (view_with_cancellations 4 1) -> Cancel r = 0 \/ Cancel r = 1).
  { intros r Hr. vm_compute in Hr.
    repeat (destruct Hr as [<- | Hr]; [vm_compute; tauto|]). destruct Hr. }
  assert (Hin : In ("Bus", Some (100 # 4)%Q) (cancel_by_vehicle (view_with_cancellations 4 1)))
    by (vm_compute; tauto).
  destruct (X10_cancel_by_vehicle_percent _ Hc _ _ Hin) as [p [[= <-] Hp]].
  exists (100 # 4)%Q. split; [exact Hin | exact Hp].
Defined.

(** ** Rounded means *)

Lemma round2_close (q : Q) : (Qabs (round2 q - q) <= 1 # 200)%Q.
Proof.
  unfold round2.
  pose proof (round_half_even_close (q * 100)) as H.
  apply Qabs_Qle_condition in H. apply Qabs_Qle_condition.
  revert H. generalize (inject_Z (round_half_even (q * 100))).
  intros t [H1 H2]. unfold Qdiv. change (/ 100)%Q with (1 # 100)%Q. split; lra.
Qed.

Lemma rounded_mean (a b : Q) (l : list Q) :
  l <> [] ->
  (forall x, In x l -> (a <= x <= b)%Q) ->
  exists m, mean l = Some m
    /\ (a <= m <= b)%Q
    /\ option_map round2 (mean l) = Some (round2 m)
    /\ (Qabs (round2 m - m) <= 1 # 200)%Q.
Proof.
  intros Hne H.
  destruct (mean_bounds a b l Hne H) as [m [Hm Hb]].
  exists m. split; [exact Hm|]. split; [exact Hb|].
  split; [rewrite Hm; reflexivity | apply round2_close].
Qed.

(** X11. On a filtered view that has rows, the Average Price and Average
    Discount metrics show a number (never NaN): the mean of the column,
    which lies between any two bounds of the column, rounded to a whole
    number of hundredths at most half a hundredth away from it, and
    printed after a dollar sign. *)
Theorem X11_average_metrics (view : DataFrame) (lo hi dlo dhi : Q) :
  view <> [] ->
  (forall r, In r view -> (lo <= Price r <= hi)%Q) ->
  (forall r, In r view -> (dlo <= CouponDiscount r <= dhi)%Q) ->
  exists (m d : Q) (tm td : Z),
    mean (map Price view) = Some m
    /\ mean (map CouponDiscount view) = Some d
    /\ (lo <= m <= hi)%Q /\ (dlo <= d <= dhi)%Q
    /\ avg_price view = Some (inject_Z tm / 100)%Q
    /\ avg_discount view = Some (inject_Z td / 100)%Q
    /\ (Qabs (inject_Z tm / 100 - m) <= 1 # 200)%Q
    /\ (Qabs (inject_Z td / 100 - d) <= 1 # 200)%Q
    /\ In (metric "Average Price" ("$" ++ format_fixed true 2 (inject_Z tm / 100)))
          (printed (key_metrics view))
    /\ In (metric "Average Discount" ("$" ++ format_fixed true 2 (inject_Z td / 100)))
          (printed (key_metrics view)).
Proof.
  intros Hne Hp Hd.
  assert (Hpne : map Price view <> []) by (destruct view; [congruence | discriminate]).
  assert (Hdne : map CouponDiscount view <> [])
    by (destruct view; [congruence | discriminate]).
  destruct (rounded_mean lo hi (map Price view) Hpne) as (m & Hm & Hmb & Hrm & Hcm).
  { intros x Hx. apply in_map_iff in Hx. destruct Hx as [r [<- Hr]]. apply Hp. exact Hr. }
  destruct (rounded_mean dlo dhi (map CouponDiscount view) Hdne) as (d & Hd' & Hdb & Hrd & Hcd).
  { intros x Hx. apply in_map_iff in Hx. destruct Hx as [r [<- Hr]]. apply Hd. exact Hr. }
  exists m, d, (round_half_even (m * 100)), (round_half_even (d * 100)).
  split; [exact Hm|]. split; [exact Hd'|]. split; [exact Hmb|]. split; [exact Hdb|].
  split; [exact Hrm|]. split; [exact Hrd|]. split; [exact Hcm|]. split; [exact Hcd|].
  rewrite key_metrics_run. unfold printed. cbn [fst].
  unfold avg_price, avg_discount in *. rewrite Hrm, Hrd. unfold format_float, round2.
  split; cbn [In]; tauto.
Qed.

Lemma X11_average_metrics_witness :
  exists m, mean (map Price fractional_prices) = Some m /\ (10 <= m <= 21)%Q.
Proof.
  assert (Hne : fractional_prices <> []) by discriminate.
  assert (Hp : forall r, In r fractional_prices -> (10 <= Price r <= 21)%Q).
  { intros r [<- | [<- | []]]; vm_compute; split; discriminate. }
  assert (Hd : forall r, In r fractional_prices -> (0 <= CouponDiscount r <= 0)%Q).
  { intros r [<- | [<- | []]]; vm_compute; split; discriminate. }
  destruct (X11_average_metrics fractional_prices 10 21 0 0 Hne Hp Hd)
    as (m & d & tm & td & Hm & _ & Hb & _).
  exists m. split; [exact Hm | exact Hb].
Defined.

(** ** The other group means *)

Lemma group_means_defined (K : Type) (eqb leb : K -> K -> bool) (key : Row -> K)
    (column : DataFrame -> list Q) (view : DataFrame) (k : K) (g : DataFrame) :
  (forall x y, eqb x y = true <-> x = y) ->
  (forall d, List.length (column d) = List.length d) ->
  In (k, g) (groupby eqb leb key view) ->
  exists m, mean (column g) = Some m.
Proof.
  intros Heq Hlen Hg.
  destruct (groupby_nonempty eqb leb key Heq view k g Hg) as [Hne _].
  apply mean_some. intro E.
  apply Hne. apply length_zero_iff_nil. rewrite <- Hlen, E. reflexivity.
Qed.

(** X12. The series "Average Price by Trip Reason" and "Average Days
    Until Departure" have one bar for each trip reason, respectively
    vehicle type, that occurs in the filtered view and for no other, and
    no bar is NaN. *)
Theorem X12_group_means (view : DataFrame) :
  (forall v, In v (map fst (avg_price_reason view))
             <-> exists r, In r view /\ TripReason r = v)
  /\ (forall v, In v (map fst (avg_days view))
                <-> exists r, In r view /\ Vehicle r = v)
  /\ NoDup (map fst (avg_price_reason view))
  /\ NoDup (map fst (avg_days view))
  /\ (forall v bar, In (v, bar) (avg_price_reason view) -> exists m, bar = Some m)
  /\ (forall v bar, In (v, bar) (avg_days view) -> exists m, bar = Some m).
Proof.
  assert (Hkeys : forall (key : Row -> string) v,
             In v (stable_sort String.leb (unique String.eqb (map key view)))
             <-> exists r, In r view /\ key r = v).
  { intros key v. split.
    - intro H.
      apply (Permutation_in _ (Permutation_sym (stable_sort_perm String.leb _))) in H.
      apply (proj1 (unique_In String.eqb String.eqb_eq _ _)) in H.
      apply in_map_iff in H. destruct H as [r [Hr H]]. exists r. auto.
    - intros [r [Hr <-]].
      apply (Permutation_in _ (stable_sort_perm String.leb _)).
      apply (unique_In String.eqb String.eqb_eq). apply in_map. exact Hr. }
  assert (E1 : map fst (avg_price_reason view)
               = map fst (groupby String.eqb String.leb TripReason view))
    by (unfold avg_price_reason; rewrite map_map; reflexivity).
  assert (E2 : map fst (avg_days view) = map fst (by_vehicle view))
    by (unfold avg_days; rewrite map_map; reflexivity).
  split; [|split; [|split; [|split; [|split]]]].
  - intro v. rewrite E1, (groupby_keys String.eqb String.leb TripReason). apply Hkeys.
  - intro v. rewrite E2. unfold by_vehicle.
    rewrite (groupby_keys String.eqb String.leb Vehicle). apply Hkeys.
  - rewrite E1. apply (groupby_keys_NoDup _ _ _ String.eqb_eq).
  - rewrite E2. apply (groupby_keys_NoDup _ _ _ String.eqb_eq).
  - intros v bar H. unfold avg_price_reason in H.
    apply in_map_iff in H. destruct H as [[k g] [[= <- <-] Hg]]. cbn [fst snd].
    apply (group_means_defined _ String.eqb String.leb TripReason (map Price) view k g
             String.eqb_eq); [intro d; apply length_map | exact Hg].
  - intros v bar H. unfold avg_days in H.
    apply in_map_iff in H. destruct H as [[k g] [[= <- <-] Hg]]. cbn [fst snd].
    apply (group_means_defined _ String.eqb String.leb Vehicle days_column view k g
             String.eqb_eq); [intro d; apply length_map | exact Hg].
Qed.

(** ** The median *)

Lemma Qle_bool_total (a b : Q) : Qle_bool a b = true \/ Qle_bool b a = true.
Proof.
  rewrite !Qle_bool_iff.
  destruct (Qlt_le_dec a b) as [H|H]; [left; apply Qlt_le_weak; exact H | right; exact H].
Qed.

Lemma Qle_bool_trans (a b c : Q) :
  Qle_bool a b = true -> Qle_bool b c = true -> Qle_bool a c = true.
Proof. rewrite !Qle_bool_iff. apply Qle_trans. Qed.

Lemma sorted_nth (A : Type) (R : A -> A -> Prop) (d : A) (s : list A) :
  StronglySorted R s ->
  forall i j, (i < j)%nat -> (j < List.length s)%nat -> R (nth i s d) (nth j s d).
Proof.
  induction 1 as [|x t Ht IH Hx]; intros i j Hij Hj; [simpl in Hj; lia|].
  destruct j as [|j]; [lia|]. simpl in Hj.
  destruct i as [|i].
  - cbn [nth]. rewrite Forall_forall in Hx. apply Hx. apply nth_In. lia.
  - cbn [nth]. apply IH; lia.
Qed.

Lemma filter_length_perm (A : Type) (p : A -> bool) (l l' : list A) :
  Permutation l l' -> List.length (filter p l) = List.length (filter p l').
Proof.
  induction 1 as [|x l l' _ IH|x y l|l l' l'' _ IH1 _ IH2]; simpl.
  - reflexivity.
  - destruct (p x); simpl; congruence.
  - destruct (p x), (p y); reflexivity.
  - congruence.
Qed.

Lemma prefix_count (A : Type) (p : A -> bool) (d : A) (k : nat) : forall s,
  (k <= List.length s)%nat ->
  (forall i, (i < k)%nat -> p (nth i s d) = true) ->
  (k <= List.length (filter p s))%nat.
Proof.
  induction k as [|k IH]; intros s Hk Hp; [lia|].
  destruct s as [|x t]; [simpl in Hk; lia|].
  simpl in Hk. cbn [filter].
  rewrite (Hp 0%nat ltac:(lia) : p x = true). cbn [List.length].
  apply le_n_S. apply IH; [lia|].
  intros i Hi. apply (Hp (S i)). lia.
Qed.

Lemma suffix_count (A : Type) (p : A -> bool) (d : A) (s : list A) : forall h,
  (forall i, (h <= i)%nat -> (i < List.length s)%nat -> p (nth i s d) = true) ->
  (List.length s - h <= List.length (filter p s))%nat.
Proof.
  induction s as [|x t IH]; intros h Hp; [simpl; lia|].
  destruct h as [|h].
  - rewrite (proj2 (filter_length_all A p (x :: t))); [lia|].
    intros y Hy. destruct (In_nth _ _ d Hy) as [i [Hi <-]]. apply Hp; [lia | exact Hi].
  - cbn [List.length Nat.sub].
    transitivity (List.length (filter p t)).
    + apply IH. intros i Hi Hlt. apply (Hp (S i)); simpl; lia.
    + cbn [filter]. destruct (p x); simpl; lia.
Qed.

(** X13. The median of a column that is not empty is a number: at least
    half of the values are at most it, at least half are at least it, and
    it lies between any two bounds of the column. *)
Theorem X13_median (l : list Q) :
  l <> [] ->
  exists m,
    median l = Some m
    /\ (forall a b, (forall x, In x l -> (a <= x <= b)%Q) -> (a <= m <= b)%Q)
    /\ (List.length l <= 2 * List.length (filter (fun x => Qle_bool x m) l))%nat
    /\ (List.length l <= 2 * List.length (filter (fun x => Qle_bool m x) l))%nat.
Proof.
  intro Hne.
  pose proof (stable_sort_perm Qle_bool l) as Hperm.
  pose proof (stable_sort_sorted Qle_bool Qle_bool_total Qle_bool_trans l) as Hsorted.
  pose proof (Permutation_length Hperm) as Hlen.
  unfold median.
  set (s := stable_sort Qle_bool l) in *.
  set (n := List.length s) in *.
  assert (Hn : (0 < n)%nat) by (rewrite <- Hlen; destruct l; [congruence | simpl; lia]).
  assert (Hmono : forall i j, (i <= j)%nat -> (j < n)%nat -> (nth i s 0 <= nth j s 0)%Q).
  { intros i j Hij Hj. destruct (Nat.eq_dec i j) as [-> | Hneq]; [apply Qle_refl|].
    apply Qle_bool_iff. apply (sorted_nth _ _ 0%Q s Hsorted); [lia | exact Hj]. }
  assert (Hin : forall i, (i < n)%nat -> In (nth i s 0%Q) l).
  { intros i Hi. apply (Permutation_in _ (Permutation_sym Hperm)). apply nth_In. exact Hi. }
  pose proof (Nat.div_mod_eq n 2) as Hdm.
  pose proof (Nat.mod_upper_bound n 2 ltac:(lia)) as Hmod.
  assert (Hgoal : forall m lo_ix hi_ix,
             (lo_ix < n)%nat -> (hi_ix < n)%nat ->
             (nth lo_ix s 0 <= m)%Q -> (m <= nth hi_ix s 0)%Q ->
             (n <= 2 * S lo_ix)%nat -> (2 * hi_ix <= n)%nat ->
             (forall a b, (forall x, In x l -> (a <= x <= b)%Q) -> (a <= m <= b)%Q)
             /\ (List.length l <= 2 * List.length (filter (fun x => Qle_bool x m) l))%nat
             /\ (List.length l <= 2 * List.length (filter (fun x => Qle_bool m x) l))%nat).
  { intros m lo_ix hi_ix Hlo Hhi Hle Hge Hcl Hch. split; [|split].
    - intros a b Hb.
      destruct (Hb _ (Hin lo_ix Hlo)) as [Ha _].
      destruct (Hb _ (Hin hi_ix Hhi)) as [_ Hb'].
      split; lra.
    - rewrite (filter_length_perm _ (fun x => Qle_bool x m) _ _ Hperm). fold s.
      assert (Hc : (S lo_ix <= List.length (filter (fun x => Qle_bool x m) s))%nat).
      { apply (prefix_count _ _ 0%Q); [fold n; lia|].
        intros i Hi. apply Qle_bool_iff.
        apply Qle_trans with (nth lo_ix s 0%Q); [apply Hmono; lia | exact Hle]. }
      rewrite Hlen. fold n. lia.
    - rewrite (filter_length_perm _ (fun x => Qle_bool m x) _ _ Hperm). fold s.
      assert (Hc : (n - hi_ix <= List.length (filter (fun x => Qle_bool m x) s))%nat).
      { apply (suffix_count _ _ 0%Q).
        intros i Hi Hlt. apply Qle_bool_iff.
        apply Qle_trans with (nth hi_ix s 0%Q); [exact Hge | apply Hmono; assumption]. }
      rewrite Hlen. fold n. lia. }
  destruct n as [|n'] eqn:En; [lia|]. rewrite <- En in *.
  destruct (Nat.even n) eqn:Eeven.
  - (* an even number of values: the mean of the two middle ones *)
    apply Nat.even_spec in Eeven. destruct Eeven as [h Eh].
    assert (Hh : (n / 2 = h)%nat) by (rewrite Eh, Nat.mul_comm; apply Nat.div_mul; lia).
    rewrite Hh.
    eexists. split; [reflexivity|].
    pose proof (Hmono (h - 1)%nat h ltac:(lia) ltac:(lia)) as Hmid.
    apply (Hgoal _ (h - 1)%nat h); try lia.
    + unfold Qdiv. change (/ 2)%Q with (1 # 2)%Q. lra.
    + unfold Qdiv. change (/ 2)%Q with (1 # 2)%Q. lra.
  - (* an odd number of values: the middle one *)
    eexists. split; [reflexivity|].
    assert (Hodd : (n mod 2 = 1)%nat).
    { destruct (Nat.eq_dec (n mod 2) 0) as [E0|E0]; [|lia].
      assert (Nat.even n = true); [|congruence].
      apply Nat.even_spec. exists (n / 2)%nat. lia. }
    apply (Hgoal _ (n / 2)%nat (n / 2)%nat); try lia; apply Qle_refl.
Qed.

Lemma X13_median_witness :
  exists m, median four_prices = Some m /\ (10 <= m <= 40)%Q.
Proof.
  assert (Hne : four_prices <> []) by discriminate.
  destruct (X13_median four_prices Hne) as (m & Hm & Hb & _).
  exists m. split; [exact Hm|].
  apply Hb. intros x Hx.
  repeat (destruct Hx as [<- | Hx]; [split; discriminate|]). destruct Hx.
Defined.

(** ** The summary table *)

Lemma median_some (l : list Q) : l <> [] -> exists m, median l = Some m.
Proof.
  intro Hne. unfold median.
  pose proof (Permutation_length (stable_sort_perm Qle_bool l)) as Hlen.
  destruct (stable_sort Qle_bool l) as [|x t] eqn:E.
  - destruct l; [congruence | discriminate].
  - cbn [List.length]. destruct (Nat.even (S (List.length t))); eexists; reflexivity.
Qed.

(** X14. The summary table has one line for each vehicle type of the
    filtered view, by ascending name.  The count of a line is the number
    of rows of that type (never zero), the counts add up to Total Tickets,
    and no statistic of a line is NaN. *)
Theorem X14_summary_table (view : DataFrame) :
  StronglySorted (fun a b => String.compare a b = Lt) (map sr_vehicle (summary_table view))
  /\ (forall v, In v (map sr_vehicle (summary_table view))
                <-> exists r, In r view /\ Vehicle r = v)
  /\ (forall line, In line (summary_table view) ->
        sr_price_count line
          = List.length (filter (fun r => String.eqb (sr_vehicle line) (Vehicle r)) view)
        /\ (0 < sr_price_count line)%nat
        /\ (exists a, sr_price_mean line = Some a)
        /\ (exists a, sr_price_median line = Some a)
        /\ (exists a, sr_cancel_mean line = Some a)
        /\ (exists a, sr_days_mean line = Some a))
  /\ list_sum (map sr_price_count (summary_table view)) = total_tickets view.
Proof.
  assert (Hkeys : map sr_vehicle (summary_table view) = map fst (by_vehicle view)).
  { unfold summary_table. rewrite map_map. reflexivity. }
  split; [rewrite Hkeys; apply by_vehicle_sorted|]. split; [|split].
  - intro v. rewrite Hkeys. unfold by_vehicle.
    rewrite (groupby_keys String.eqb String.leb Vehicle). split.
    + intro H.
      apply (Permutation_in _ (Permutation_sym (stable_sort_perm String.leb _))) in H.
      apply (proj1 (unique_In String.eqb String.eqb_eq _ _)) in H.
      apply in_map_iff in H. destruct H as [r [Hr H]]. exists r. auto.
    + intros [r [Hr <-]].
      apply (Permutation_in _ (stable_sort_perm String.leb _)).
      apply (unique_In String.eqb String.eqb_eq). apply in_map. exact Hr.
  - intros line H. unfold summary_table in H.
    apply in_map_iff in H. destruct H as [[k g] [<- Hg]].
    cbn [fst snd sr_vehicle sr_price_count sr_price_mean sr_price_median
         sr_cancel_mean sr_days_mean].
    destruct (groupby_nonempty String.eqb String.leb Vehicle String.eqb_eq view k g Hg)
      as [Hne _].
    pose proof (proj1 (groupby_In String.eqb String.leb Vehicle String.eqb_eq view k g) Hg)
      as [_ Eg].
    assert (Hp : map Price g <> []) by (destruct g; [congruence | discriminate]).
    assert (Hc : cancel_column g <> []) by (destruct g; [congruence | discriminate]).
    assert (Hd : days_column g <> []) by (destruct g; [congruence | discriminate]).
    split; [rewrite Eg; reflexivity|].
    split; [destruct g; [congruence | simpl; lia]|].
    destruct (mean_some _ Hp) as [a1 ->].
    destruct (median_some _ Hp) as [a2 ->].
    destruct (mean_some _ Hc) as [a3 ->].
    destruct (mean_some _ Hd) as [a4 ->].
    repeat split; eexists; reflexivity.
  - unfold summary_table, total_tickets. rewrite map_map. cbn [sr_price_count].
    apply (groupby_sizes String.eqb String.leb Vehicle String.eqb_eq).
Qed.

(** ** The ranking of the routes *)

Lemma StronglySorted_app_inv (A : Type) (R : A -> A -> Prop) (l1 l2 : list A) :
  StronglySorted R (l1 ++ l2) ->
  forall a b, In a l1 -> In b l2 -> R a b.
Proof.
  induction l1 as [|x t IH]; intros H a b Ha Hb; [contradiction|].
  simpl in H. apply StronglySorted_inv in H. destruct H as [Ht Hx].
  destruct Ha as [<- | Ha].
  - rewrite Forall_forall in Hx. apply Hx. apply in_or_app. right. exact Hb.
  - apply IH; assumption.
Qed.

Lemma route_ranking (view : DataFrame) :
  let ranking := sort_descending (fun a b => Nat.leb (snd a) (snd b)) (route_sizes view) in
  Permutation ranking (route_sizes view)
  /\ StronglySorted ranks_before ranking
  /\ route_counts view = firstn 10 ranking.
Proof.
  intro ranking. split; [symmetry; apply sort_descending_perm|]. split; [|reflexivity].
  pose proof (sort_descending_stably _ count_leb_total count_leb_trans _ _
                (route_sizes_sorted view)) as H.
  revert H. apply StronglySorted_weaken.
  intros a b _ _ [H1 H2]. rewrite !Nat.leb_le in *. unfold ranks_before.
  destruct (Nat.eq_dec (snd a) (snd b)) as [E|E].
  - right. split; [exact E|]. apply H2. lia.
  - left. lia.
Qed.

Lemma route_sizes_In (view : DataFrame) (k : string * string) (c : nat) :
  In (k, c) (route_sizes view)
  <-> In k (map route view) /\ c = count_of route_eqb k (map route view).
Proof.
  rewrite route_sizes_keys. split.
  - intro H. apply in_map_iff in H. destruct H as [k' [E Hk]].
    injection E as Ek Ec. subst k'.
    apply (Permutation_in _ (Permutation_sym (stable_sort_perm route_leb _))) in Hk.
    apply (proj1 (unique_In route_eqb route_eqb_spec _ _)) in Hk. auto.
  - intros [Hk ->]. apply in_map_iff. exists k. split; [reflexivity|].
    apply (Permutation_in _ (stable_sort_perm route_leb _)).
    apply (unique_In route_eqb route_eqb_spec). exact Hk.
Qed.

Lemma route_sizes_total (view : DataFrame) :
  list_sum (map snd (route_sizes view)) = List.length view.
Proof.
  unfold route_sizes. rewrite map_map. cbn [snd].
  apply (groupby_sizes route_eqb route_leb route route_eqb_spec).
Qed.

Lemma list_sum_firstn (n : nat) (l : list nat) :
  (list_sum (firstn n l) <= list_sum l)%nat.
Proof.
  revert l. induction n as [|n IH]; intros [|x t]; simpl; try lia.
  specialize (IH t). lia.
Qed.

(** X15. The routes table really shows the top routes: it has ten lines,
    or as many as the view has distinct routes if these are fewer; each
    line carries the number of rows of its route (never zero); a route of
    the view that is not shown has no more rows than any route shown; and
    the counts shown add up to at most Total Tickets, exactly so when the
    view has at most ten distinct routes. *)
Theorem X15_top_routes_are_top (view : DataFrame) :
  let routes := unique route_eqb (map route view) in
  List.length (route_counts view) = Nat.min 10 (List.length routes)
  /\ (forall k c, In (k, c) (route_counts view) ->
        In k (map route view)
        /\ c = List.length (filter (fun r => route_eqb k (route r)) view)
        /\ (0 < c)%nat)
  /\ (forall k shown,
        In k (map route view) -> ~ In k (map fst (route_counts view)) ->
        In shown (route_counts view) ->
        (List.length (filter (fun r => route_eqb k (route r)) view) <= snd shown)%nat)
  /\ (list_sum (map snd (route_counts view)) <= total_tickets view)%nat
  /\ ((List.length routes <= 10)%nat ->
      list_sum (map snd (route_counts view)) = total_tickets view).
Proof.
  intro routes.
  destruct (route_ranking view) as (Hperm & Hsorted & Htop).
  set (ranking := sort_descending (fun a b => Nat.leb (snd a) (snd b)) (route_sizes view)) in *.
  assert (Hlen : List.length ranking = List.length routes).
  { rewrite (Permutation_length Hperm), route_sizes_keys, length_map.
    symmetry. apply Permutation_length. apply stable_sort_perm. }
  assert (Hin : forall k c, In (k, c) ranking
                            <-> In k (map route view)
                                /\ c = count_of route_eqb k (map route view)).
  { intros k c. rewrite <- route_sizes_In. split; apply Permutation_in;
      [exact Hperm | symmetry; exact Hperm]. }
  split; [|split; [|split; [|split]]].
  - rewrite Htop, length_firstn, Hlen. reflexivity.
  - intros k c H. rewrite Htop in H.
    assert (H' : In (k, c) ranking).
    { rewrite <- (firstn_skipn 10 ranking). apply in_or_app. left. exact H. }
    apply Hin in H'. destruct H' as [Hk ->].
    split; [exact Hk|]. rewrite (group_size _ route_eqb route k view).
    split; [reflexivity|].
    unfold count_of.
    assert (Hk' : In k (filter (route_eqb k) (map route view))).
    { apply filter_In. split; [exact Hk | apply route_eqb_spec; reflexivity]. }
    destruct (filter (route_eqb k) (map route view)); [contradiction | simpl; lia].
  - intros k shown Hk Hnot Hshown.
    rewrite (group_size _ route_eqb route k view).
    assert (Hr : In (k, count_of route_eqb k (map route view)) ranking)
      by (apply Hin; split; [exact Hk | reflexivity]).
    rewrite <- (firstn_skipn 10 ranking) in Hr, Hsorted.
    apply in_app_or in Hr. destruct Hr as [Hr|Hr].
    + exfalso. apply Hnot. rewrite Htop.
      apply (in_map fst) in Hr. exact Hr.
    + rewrite Htop in Hshown.
      pose proof (StronglySorted_app_inv _ _ _ _ Hsorted _ _ Hshown Hr) as Hrank.
      unfold ranks_before in Hrank. cbn [snd] in Hrank. lia.
  - unfold total_tickets. rewrite <- (route_sizes_total view).
    rewrite <- (list_sum_perm _ _ (Permutation_map snd Hperm)).
    rewrite Htop, <- firstn_map. apply list_sum_firstn.
  - intro Hfew. unfold total_tickets. rewrite <- (route_sizes_total view).
    rewrite <- (list_sum_perm _ _ (Permutation_map snd Hperm)).
    rewrite Htop, firstn_all2; [reflexivity | lia].
Qed.

Lemma X15_top_routes_are_top_witness :
  list_sum (map snd (route_counts three_routes)) = total_tickets three_routes.
Proof.
  apply (X15_top_routes_are_top three_routes). vm_compute. lia.
Defined.

(** ** What the histogram counts *)









(** Three tickets priced 1.00, 1.01 and 1.99 in a hundred bins.  The cut
    edges start 0.99901, 1.0099, 1.0198; the labels start (0.998, 1.01],
    (1.01, 1.02].  The 1.01 ticket is above the edge 1.0099 and is counted
    in the second bin, whose label does not contain 1.01: each line gives
    the label, the count shown and the number of rows inside the label. *)
Example histogram_counts_by_cut_edges :
  option_map (fun hist =>
                map (fun b => (Qred (lower b), Qred (upper b), tally b,
                               List.length
                                 (filter (fun r => Qlt_bool (lower b) (Price r)
                                                   && Qle_bool (Price r) (upper b))
                                         three_close_prices)))
                    (firstn 3 hist))
             (price_histogram three_close_prices 100)
  = Some [(499 # 500, 101 # 100, 1%nat, 2%nat); (101 # 100, 51 # 50, 1%nat, 0%nat);
          (51 # 50, 103 # 100, 0%nat, 0%nat)]%Q.
Proof. vm_compute. reflexivity. Qed.

(** ** Printed counts *)

Lemma commas_rev_only_commas (ds : list ascii) : forall i,
  filter (fun c => negb (Ascii.eqb c ","%char)) (commas_rev i ds)
  = filter (fun c => negb (Ascii.eqb c ","%char)) ds.
Proof.
  induction ds as [|d t IH]; intro i; [reflexivity|].
  cbn [commas_rev].
  destruct (Nat.ltb 0 i && Nat.eqb (i mod 3) 0)%bool.
  - cbn [filter]. replace (negb (Ascii.eqb ","%char ","%char)) with false by reflexivity.
    rewrite IH. reflexivity.
  - cbn [filter]. rewrite IH. reflexivity.
Qed.

Lemma digits_no_comma (d : Decimal.uint) :
  forallb (fun c => negb (Ascii.eqb c ","%char))
          (list_ascii_of_string (NilEmpty.string_of_uint d)) = true.
Proof.
  induction d; simpl; try assumption; reflexivity.
Qed.

Lemma without_commas_with_commas (digits : string) :
  forallb (fun c => negb (Ascii.eqb c ","%char)) (list_ascii_of_string digits) = true ->
  without_commas (with_commas digits) = digits.
Proof.
  intro H. unfold without_commas, with_commas.
  rewrite list_ascii_of_string_of_list_ascii.
  rewrite filter_rev, commas_rev_only_commas, <- filter_rev, rev_involutive.
  rewrite (forallb_filter_id _ _ H).
  apply string_of_list_ascii_of_string.
Qed.

Lemma parse_format_count (n : Z) : 0 <= n -> parse_count (format_int_commas n) = Some n.
Proof.
  intro Hn. unfold parse_count, format_int_commas, string_of_Z.
  assert (Hnn : N.to_uint (Z.to_N n) <> Decimal.Nil).
  { destruct (Z.to_N n); [discriminate | apply DecimalPos.Unsigned.to_uint_nonnil]. }
  rewrite without_commas_with_commas.
  - rewrite (NilZero.usu _ Hnn). cbn [option_map].
    rewrite DecimalN.Unsigned.of_to, Z2N.id by exact Hn. reflexivity.
  - unfold NilZero.string_of_uint.
    destruct (N.to_uint (Z.to_N n)) eqn:E; try apply digits_no_comma. congruence.
Qed.

(** X17. The Total Tickets metric shows the number of rows of the view
    with thousands separators: dropping the commas from its text and
    reading the digits gives the row count back. *)
Theorem X17_total_tickets_reads_back (view : DataFrame) :
  exists text,
    In (metric "Total Tickets" text) (printed (key_metrics view))
    /\ parse_count text = Some (Z.of_nat (total_tickets view)).
Proof.
  exists (format_int_commas (Z.of_nat (total_tickets view))). split.
  - rewrite key_metrics_run. unfold printed. cbn [fst In]. tauto.
  - apply parse_format_count. lia.
Qed.

(** ** Selecting genders *)

Lemma gender_counts_total (view : DataFrame) :
  (forall r, In r view -> Gender r <> None) ->
  list_sum (map snd (gender_counts view)) = total_tickets view.
Proof.
  intro H. unfold gender_counts, total_tickets.
  rewrite value_counts_total, dropna_length.
  rewrite <- (length_map Gender view).
  apply filter_length_all. intros g Hg.
  apply in_map_iff in Hg. destruct Hg as [r [<- Hr]].
  specialize (H r Hr). destruct (Gender r); [reflexivity | congruence].
Qed.

(** X18. Once the user selects genders (a selection that is not empty and
    does not hold the missing label), the rows whose [Male] is neither 0
    nor 1 leave the filtered view, and the "Tickets by Gender" counts add
    up to Total Tickets. *)
Theorem X18_gender_selection_drops_unlabelled (csv : list CsvRow) (w : Widgets) :
  w_gender_filter w <> [] ->
  ~ In None (w_gender_filter w) ->
  let view := df_selection (load_data csv) w in
  (forall r, In r view -> Male r = 0 \/ Male r = 1)
  /\ (forall r, In r view -> In (Gender r) (w_gender_filter w))
  /\ list_sum (map snd (gender_counts view)) = total_tickets view.
Proof.
  intros Hne Hnone view.
  assert (Hsel : forall r, In r view -> In (Gender r) (w_gender_filter w)).
  { intros r Hr. unfold view in Hr. rewrite df_selection_conj in Hr.
    apply filter_In in Hr. destruct Hr as [_ Hr].
    unfold dimension_filters in Hr. cbn [forallb] in Hr.
    rewrite !andb_true_iff in Hr. destruct Hr as (_ & _ & _ & _ & Hg & _).
    apply (selected_or_unfiltered_iff _ label_eqb label_eqb_spec) in Hg.
    destruct Hg; [contradiction | assumption]. }
  assert (Hlab : forall r, In r view -> Gender r <> None).
  { intros r Hr E. apply Hnone. rewrite <- E. apply Hsel. exact Hr. }
  split; [|split].
  - intros r Hr.
    pose proof (Hlab r Hr) as Hg.
    apply df_selection_incl in Hr.
    destruct (load_data_row csv r Hr) as [_ E]. rewrite E in Hg.
    destruct (Z.eq_dec (Male r) 0) as [H0|H0]; [left; exact H0|].
    destruct (Z.eq_dec (Male r) 1) as [H1|H1]; [right; exact H1|].
    exfalso. apply Hg. apply gender_of_None. split; assumption.
  - exact Hsel.
  - apply gender_counts_total. exact Hlab.
Qed.

Lemma X18_gender_selection_drops_unlabelled_witness :
  let csv := [mkCsvRow "Bus" "Work" 1 0 (500000 # 1) 0 1 "A" "B" 0 0;
              mkCsvRow "Bus" "Work" 1 0 (500000 # 1) 0 2 "A" "B" 0 0] in
  let w := mkWidgets [] [] [] [] (0, 1000000) [Some "Male"] 50 in
  list_sum (map snd (gender_counts (df_selection (load_data csv) w)))
  = total_tickets (df_selection (load_data csv) w).
Proof.
  intros csv w.
  apply (X18_gender_selection_drops_unlabelled csv w).
  - discriminate.
  - intros [H | []]. discriminate H.
Defined.

(** ** The default price range *)

Lemma py_int_floor (q : Q) : (0 <= q)%Q -> py_int q = Qfloor q.
Proof.
  destruct q as [n d]. unfold Qle, py_int, Qfloor. simpl. intro H.
  rewrite Z.mul_1_r in H. apply Z.quot_div_nonneg; lia.
Qed.

Lemma py_int_ceiling (q : Q) : (q <= 0)%Q -> py_int q = Qceiling q.
Proof.
  destruct q as [n d]. unfold Qle, py_int, Qceiling, Qfloor, Qopp. simpl. intro H.
  rewrite Z.mul_1_r in H.
  rewrite <- (Z.opp_involutive n) at 1. rewrite Z.quot_opp_l by discriminate.
  rewrite Z.quot_div_nonneg by lia. reflexivity.
Qed.

(** [int] never moves a number away from zero, and by less than one. *)
Lemma py_int_nonneg (q : Q) :
  (0 <= q)%Q -> (inject_Z (py_int q) <= q)%Q /\ (q < inject_Z (py_int q) + 1)%Q.
Proof.
  intro H. rewrite (py_int_floor q H). split; [apply Qfloor_le|].
  pose proof (Qlt_floor q) as Hlt. rewrite inject_Z_plus in Hlt. exact Hlt.
Qed.

Lemma py_int_monotone (p q : Q) : (p <= q)%Q -> py_int p <= py_int q.
Proof.
  intro H.
  destruct (Qlt_le_dec p 0) as [Hp|Hp]; destruct (Qlt_le_dec q 0) as [Hq|Hq].
  - rewrite (py_int_ceiling p), (py_int_ceiling q) by (apply Qlt_le_weak; assumption).
    apply Qceiling_resp_le. exact H.
  - rewrite (py_int_ceiling p (Qlt_le_weak _ _ Hp)), (py_int_floor q Hq).
    transitivity 0.
    + change 0 with (Qceiling 0). apply Qceiling_resp_le. apply Qlt_le_weak. exact Hp.
    + change 0 with (Qfloor 0). apply Qfloor_resp_le. exact Hq.
  - exfalso. lra.
  - rewrite (py_int_floor p Hp), (py_int_floor q Hq). apply Qfloor_resp_le. exact H.
Qed.

(** X19. Whenever the price slider is printed, its lower bound is at most
    its upper bound and it starts at the whole range.  On an empty table
    no slider is printed (the run dies before it); on any other table the
    slider "Select Price Range" is printed. *)
Theorem X19_price_slider_well_formed (extra : nat) (df : DataFrame) (w : Widgets) :
  (forall label min_value max_value value,
     In (sidebar_slider label min_value max_value value)
        (printed (header_and_sidebar df w)) ->
     min_value <= max_value /\ value = (min_value, max_value))
  /\ (df = [] ->
      forall label min_value max_value value,
        ~ In (sidebar_slider label min_value max_value value)
             (printed (streamlit_app extra df w)))
  /\ (df <> [] ->
      exists min_value max_value,
        In (sidebar_slider "Select Price Range" min_value max_value (min_value, max_value))
           (printed (streamlit_app extra df w))).
Proof.
  split; [|split].
  - intros label min_value max_value value.
    assert (Hdf : df = [] \/ df <> [])
      by (destruct df; [left; reflexivity | right; discriminate]).
    destruct Hdf as [-> | Hne].
    + rewrite header_and_sidebar_empty. unfold printed. cbn [fst In]. intro H.
      repeat (destruct H as [H|H]; [discriminate H|]). destruct H.
    + assert (Hp : map Price df <> []) by (destruct df; [congruence | discriminate]).
      destruct (series_min_spec _ Hp) as [mn [Hmn [Hmn_in Hmn_le]]].
      destruct (series_max_spec _ Hp) as [mx [Hmx [Hmx_in Hmx_le]]].
      rewrite (header_and_sidebar_run _ _ mn mx Hmn Hmx). unfold printed. cbn [fst In].
      intro H.
      repeat (destruct H as [H|H]; [first [discriminate H | injection H as _ <- <- <-]|]);
        try solve [destruct H].
      split; [|reflexivity].
      apply py_int_monotone. apply Hmn_le. exact Hmx_in.
  - intros -> label min_value max_value value H.
    unfold streamlit_app in H. rewrite header_and_sidebar_empty in H.
    unfold bind, printed in H. cbn [fst In] in H.
    repeat (destruct H as [H|H]; [discriminate H|]). destruct H.
  - intro Hne.
    destruct (page_top df w Hne) as (mn & mx & chrome & _ & _ & _ & Hin & Htop).
    exists (py_int mn), (py_int mx).
    unfold streamlit_app. rewrite Htop, printed_bind.
    apply in_or_app. left. exact Hin.
Qed.

Lemma X19_price_slider_well_formed_witness :
  10 <= 20
  /\ exists min_value max_value,
       In (sidebar_slider "Select Price Range" min_value max_value (min_value, max_value))
          (printed (streamlit_app 0 fractional_prices nothing_selected)).
Proof.
  destruct (X19_price_slider_well_formed 0 fractional_prices nothing_selected)
    as (Hbounds & _ & Hprinted).
  split.
  - apply (Hbounds "Select Price Range" 10 20 (10, 20)). vm_compute. tauto.
  - apply Hprinted. discriminate.
Defined.

(** X20. With every widget at its default, on a table of non-negative
    prices, the only rows missing from the view are rows priced above the
    truncated maximum, and they are within one unit of the maximum
    price. *)
Theorem X20_default_view_misses_only_top (df : DataFrame) :
  df <> [] ->
  (forall r, In r df -> (0 <= Price r)%Q) ->
  exists (w : Widgets) (mx : Q),
    default_widgets df = Some w
    /\ series_max (map Price df) = Some mx
    /\ df_selection df w = filter (fun r => Qle_bool (Price r) (inject_Z (py_int mx))) df
    /\ (forall r, In r df -> ~ In r (df_selection df w) ->
          (mx - 1 < Price r)%Q /\ (Price r <= mx)%Q).
Proof.
  intros Hne Hpos.
  assert (Hp : map Price df <> []) by (destruct df; [congruence | discriminate]).
  destruct (series_min_spec _ Hp) as [mn [Hmn [Hmn_in Hmn_le]]].
  destruct (series_max_spec _ Hp) as [mx [Hmx [Hmx_in Hmx_le]]].
  assert (Hmn0 : (0 <= mn)%Q).
  { apply in_map_iff in Hmn_in. destruct Hmn_in as [r [<- Hr]]. apply Hpos. exact Hr. }
  assert (Hmx0 : (0 <= mx)%Q).
  { apply in_map_iff in Hmx_in. destruct Hmx_in as [r [<- Hr]]. apply Hpos. exact Hr. }
  destruct (py_int_nonneg mn Hmn0) as [Hmn1 _].
  destruct (py_int_nonneg mx Hmx0) as [_ Hmx2].
  eexists. exists mx.
  split; [apply (default_widgets_Some df mn mx Hmn Hmx)|]. split; [exact Hmx|].
  assert (Hview : df_selection df
                    {| w_vehicle_types := unique String.eqb (map Vehicle df);
                       w_trip_reasons := unique String.eqb (map TripReason df);
                       w_domestic_filter := unique Z.eqb (map Domestic df);
                       w_cancel_filter := unique Z.eqb (map Cancel df);
                       w_price_range := (py_int mn, py_int mx);
                       w_gender_filter := unique label_eqb (map Gender df);
                       w_price_bins := 50 |}
                  = filter (fun r => Qle_bool (Price r) (inject_Z (py_int mx))) df).
  { rewrite df_selection_steps.
    unfold apply_filters, dimension_filters.
    cbn [fold_left w_vehicle_types w_trip_reasons w_domestic_filter w_cancel_filter
         w_gender_filter w_price_range].
    keep_all.
    apply filter_ext_in. intros r Hr. unfold in_price_range. cbn [fst snd].
    assert (Hlow : Qle_bool (inject_Z (py_int mn)) (Price r) = true).
    { apply Qle_bool_iff. apply Qle_trans with mn; [exact Hmn1|].
      apply Hmn_le. apply in_map. exact Hr. }
    rewrite Hlow. reflexivity. }
  split; [exact Hview|].
  intros r Hr Hnot. rewrite Hview in Hnot.
  assert (Hout : Qle_bool (Price r) (inject_Z (py_int mx)) = false).
  { destruct (Qle_bool (Price r) (inject_Z (py_int mx))) eqn:E; [|reflexivity].
    exfalso. apply Hnot. apply filter_In. split; assumption. }
  apply Qle_bool_false_iff in Hout.
  split; [lra|]. apply Hmx_le. apply in_map. exact Hr.
Qed.

Lemma X20_default_view_misses_only_top_witness :
  exists w, default_widgets fractional_prices = Some w
            /\ List.length (df_selection fractional_prices w) = 1%nat.
Proof.
  assert (Hne : fractional_prices <> []) by discriminate.
  assert (Hpos : forall r, In r fractional_prices -> (0 <= Price r)%Q).
  { intros r [<- | [<- | []]]; discriminate. }
  destruct (X20_default_view_misses_only_top fractional_prices Hne Hpos)
    as (w & mx & Hw & Hmx & Hview & _).
  exists w. split; [exact Hw|].
  rewrite Hview. injection Hmx as <-. reflexivity.
Defined.

